(** * Prebid.js adapters: adgenerationBidAdapter and novatiqIdSystem

    A shallow embedding of the two plugin modules and the properties the
    specification states about them.

    - [JsString]: the JavaScript string builtins the modules call
      (indexOf, lastIndexOf, substr, replace, toUpperCase, parseInt,
      Number.prototype.toString, JSON.stringify, encodeURIComponent).
      Strings are sequences of 8-bit code units.
    - [Adgeneration]: modules/adgenerationBidAdapter.js.
    - [Novatiq]: modules/novatiqIdSystem.js.

    JavaScript exceptions are results in the [result] monad.  The response
    and request objects are records whose fields are optional: [None] is an
    absent (undefined) property, [Some v] a property of the type the
    response schema gives it.  Numbers are rationals: the modules only
    test them for truthiness and equality.  Logging calls are left out. *)

From Stdlib Require Import ZArith QArith Qround List String Ascii Bool Lia.
From Stdlib Require Import DecimalString.
Import ListNotations.

Local Open Scope string_scope.
Local Open Scope Z_scope.

(** ** Exceptions *)

Inductive exn : Type :=
| TypeError (msg : string).

Inductive result (A : Type) : Type :=
| Ok (a : A)
| Throw (e : exn).

Arguments Ok {A} a.
Arguments Throw {A} e.

Definition bind {A B : Type} (r : result A) (k : A -> result B) : result B :=
  match r with
  | Ok a => k a
  | Throw e => Throw e
  end.

Notation "x <- r ;; k" := (bind r (fun x => k))
  (at level 61, r at next level, right associativity).

(** The call returned instead of throwing. *)
Definition is_ok {A : Type} (r : result A) : bool :=
  match r with
  | Ok _ => true
  | Throw _ => false
  end.

(** Reading a property of [undefined]. *)
Definition prop_of {A : Type} (what : string) (o : option A) : result A :=
  match o with
  | Some a => Ok a
  | None => Throw (TypeError ("Cannot read properties of undefined: " ++ what))
  end.

Fixpoint mapM {A B : Type} (f : A -> result B) (l : list A) : result (list B) :=
  match l with
  | [] => Ok []
  | a :: l' => b <- f a ;; bs <- mapM f l' ;; Ok (b :: bs)
  end.

Fixpoint foldM {A B : Type} (f : B -> A -> result B) (l : list A) (b : B)
  : result B :=
  match l with
  | [] => Ok b
  | a :: l' => b' <- f b a ;; foldM f l' b'
  end.

(** ** JavaScript string builtins *)

Module JsString.

Definition dq : string := String "034"%char "".
Definition LF : ascii := "010"%char.
Definition CR : ascii := "013"%char.

Definition code (c : ascii) : Z := Z.of_nat (nat_of_ascii c).
Definition len (s : string) : Z := Z.of_nat (String.length s).

(** [`${x}`] for a property that may be undefined. *)
Definition to_string (o : option string) : string :=
  match o with
  | Some s => s
  | None => "undefined"
  end.

(** Truthiness of a possibly undefined string. *)
Definition truthy_str (o : option string) : bool :=
  match o with
  | Some s => negb (s =? "")%string
  | None => false
  end.

(** WhiteSpace and LineTerminator code units below 256 (regex [\s] and
    the trimming of parseInt). *)
Definition is_space (c : ascii) : bool :=
  let n := code c in
  ((9 <=? n) && (n <=? 13)) || (n =? 32) || (n =? 160).

(** s.indexOf(pat) *)
Fixpoint indexOf_from (pat s : string) (i : Z) : Z :=
  if prefix pat s then i
  else match s with
       | EmptyString => -1
       | String _ s' => indexOf_from pat s' (i + 1)
       end.

Definition indexOf (s pat : string) : Z := indexOf_from pat s 0.

(** s.lastIndexOf(pat) *)
Fixpoint lastIndexOf_from (pat s : string) (i last : Z) : Z :=
  let last' := if prefix pat s then i else last in
  match s with
  | EmptyString => last'
  | String _ s' => lastIndexOf_from pat s' (i + 1) last'
  end.

Definition lastIndexOf (s pat : string) : Z := lastIndexOf_from pat s 0 (-1).

(** s.substr(start, length): [length] characters from [start]. *)
Definition substr (s : string) (start length : Z) : string :=
  let size := len s in
  let st := if start <? 0 then Z.max (size + start) 0 else Z.min start size in
  let ln := Z.min (Z.max length 0) (size - st) in
  substring (Z.to_nat st) (Z.to_nat ln) s.

(** The expansion of a replacement string (GetSubstitution) for a pattern
    without capture groups: [$$], [$&], [$`] and [$']. *)
Fixpoint getSubstitution (matched before after repl : string) : string :=
  match repl with
  | EmptyString => EmptyString
  | String c tl =>
      if (c =? "$")%char then
        match tl with
        | EmptyString => String c EmptyString
        | String d tl' =>
            if (d =? "$")%char then
              String "$" (getSubstitution matched before after tl')
            else if (d =? "&")%char then
              matched ++ getSubstitution matched before after tl'
            else if (d =? "`")%char then
              before ++ getSubstitution matched before after tl'
            else if (d =? "'")%char then
              after ++ getSubstitution matched before after tl'
            else String c (getSubstitution matched before after tl)
        end
      else String c (getSubstitution matched before after tl)
  end.

(** Leftmost match of a matcher that returns the length matched at the
    head of its argument. *)
Fixpoint find_match (m : string -> option nat) (s : string) (i : nat)
  : option (nat * nat) :=
  match m s with
  | Some n => Some (i, n)
  | None => match s with
            | EmptyString => None
            | String _ s' => find_match m s' (S i)
            end
  end.

(** s.replace(pattern, repl) without the g flag: the first match only. *)
Definition replace_first (m : string -> option nat) (s repl : string)
  : string :=
  match find_match m s 0 with
  | None => s
  | Some (i, n) =>
      let before := substring 0 i s in
      let matched := substring i n s in
      let after := substring (i + n) (String.length s - (i + n)) s in
      before ++ getSubstitution matched before after repl ++ after
  end.

(** A string pattern matches itself. *)
Definition lit (pat : string) (s : string) : option nat :=
  if prefix pat s then Some (String.length pat) else None.

(** s.replace(pat, repl) for a string [pat]. *)
Definition replace (s pat repl : string) : string :=
  replace_first (lit pat) s repl.

(** The regular expression [/<\/\s?body>/]. *)
Definition close_body_re (s : string) : option nat :=
  if prefix "</body>" s then Some 7%nat
  else match s with
       | String "<" (String "/" (String w rest)) =>
           if is_space w && prefix "body>" rest then Some 8%nat else None
       | _ => None
       end.

(** s.replace(/\r?\n/g, '') *)
Fixpoint replace_crlf_global (s : string) : string :=
  match s with
  | EmptyString => EmptyString
  | String c tl =>
      if (c =? LF)%char then replace_crlf_global tl
      else if (c =? CR)%char then
        match tl with
        | String d tl' =>
            if (d =? LF)%char then replace_crlf_global tl'
            else String c (replace_crlf_global tl)
        | EmptyString => String c EmptyString
        end
      else String c (replace_crlf_global tl)
  end.

(** s.toUpperCase().  Only a-z change among the code units modelled that
    can produce an ASCII capital. *)
Definition upper_char (c : ascii) : ascii :=
  let n := nat_of_ascii c in
  if (97 <=? n)%nat && (n <=? 122)%nat then ascii_of_nat (n - 32) else c.

Fixpoint toUpperCase (s : string) : string :=
  match s with
  | EmptyString => EmptyString
  | String c tl => String (upper_char c) (toUpperCase tl)
  end.

(** *** Numbers and radix 16 *)

Definition hex_digit (d : Z) : ascii :=
  if d <? 10 then ascii_of_nat (Z.to_nat (48 + d))
  else ascii_of_nat (Z.to_nat (87 + d)).

Fixpoint hex_digits (fuel : nat) (n : Z) (acc : string) : string :=
  match fuel with
  | O => acc
  | S fuel' =>
      let acc' := String (hex_digit (n mod 16)) acc in
      if n / 16 =? 0 then acc' else hex_digits fuel' (n / 16) acc'
  end.

(** n.toString(16) for an integer or NaN ([None]). *)
Definition toString16 (n : option Z) : string :=
  match n with
  | None => "NaN"
  | Some z =>
      let a := Z.abs z in
      let digits := hex_digits (S (Z.to_nat (Z.log2 a))) a "" in
      if z <? 0 then String "-" digits else digits
  end.

(** The value of a digit in radix 16. *)
Definition hex_value (c : ascii) : option Z :=
  let n := code c in
  if (48 <=? n) && (n <=? 57) then Some (n - 48)
  else if (97 <=? n) && (n <=? 102) then Some (n - 87)
  else if (65 <=? n) && (n <=? 70) then Some (n - 55)
  else None.

Fixpoint trim_start (s : string) : string :=
  match s with
  | String c tl => if is_space c then trim_start tl else s
  | EmptyString => s
  end.

(** The longest prefix of radix-16 digits, as a number; [None] when the
    prefix is empty. *)
Fixpoint parse_digits16 (s : string) (acc : option Z) : option Z :=
  match s with
  | EmptyString => acc
  | String c tl =>
      match hex_value c with
      | None => acc
      | Some d =>
          parse_digits16 tl (Some (16 * match acc with
                                        | Some a => a
                                        | None => 0
                                        end + d))
      end
  end.

(** parseInt(str, 16); [None] is NaN.  Exact while the digits fit a
    double's 53 bits, which the three-character arguments of isHex do. *)
Definition parseInt16 (str : string) : option Z :=
  let s := trim_start str in
  let '(sign, s1) :=
    match s with
    | String "-" tl => (-1, tl)
    | String "+" tl => (1, tl)
    | _ => (1, s)
    end in
  let s2 :=
    match s1 with
    | String "0" (String "x" tl) => tl
    | String "0" (String "X" tl) => tl
    | _ => s1
    end in
  match parse_digits16 s2 None with
  | None => None
  | Some v => Some (sign * v)
  end.

(** String(n) for an integer. *)
Definition num_to_string (n : Z) : string :=
  NilZero.string_of_int (Z.to_int n).

(** *** JSON.stringify of a string and encodeURIComponent *)

Definition hex2 (n : Z) : string :=
  String (hex_digit (n / 16)) (String (hex_digit (n mod 16)) "").

Definition json_escape_char (c : ascii) : string :=
  let n := code c in
  if n =? 34 then "\" ++ dq
  else if n =? 92 then "\\"
  else if n =? 8 then "\b"
  else if n =? 9 then "\t"
  else if n =? 10 then "\n"
  else if n =? 12 then "\f"
  else if n =? 13 then "\r"
  else if n <? 32 then "\u00" ++ hex2 n
  else String c "".

Fixpoint json_escape (s : string) : string :=
  match s with
  | EmptyString => EmptyString
  | String c tl => json_escape_char c ++ json_escape tl
  end.

(** JSON.stringify(s) for a string [s]. *)
Definition JSON_stringify_string (s : string) : string :=
  dq ++ json_escape s ++ dq.

Definition uri_unreserved (c : ascii) : bool :=
  let n := code c in
  ((48 <=? n) && (n <=? 57)) || ((65 <=? n) && (n <=? 90))
  || ((97 <=? n) && (n <=? 122))
  || (n =? 45) || (n =? 95) || (n =? 46) || (n =? 33) || (n =? 126)
  || (n =? 42) || (n =? 39) || (n =? 40) || (n =? 41).

Definition pct (n : Z) : string :=
  String "%" (toUpperCase (hex2 n)).

(** One code unit, percent-encoded through its UTF-8 bytes. *)
Definition uri_encode_char (c : ascii) : string :=
  let n := code c in
  if uri_unreserved c then String c ""
  else if n <? 128 then pct n
  else pct (192 + n / 64) ++ pct (128 + n mod 64).

Fixpoint encodeURIComponent (s : string) : string :=
  match s with
  | EmptyString => EmptyString
  | String c tl => uri_encode_char c ++ encodeURIComponent tl
  end.

(** *** Predicates used to state the properties *)

Fixpoint contains_char (c : ascii) (s : string) : bool :=
  match s with
  | EmptyString => false
  | String d tl => (d =? c)%char || contains_char c tl
  end.

(** Every character of the string passes the test. *)
Fixpoint all_chars (p : ascii -> bool) (s : string) : bool :=
  match s with
  | EmptyString => true
  | String c tl => p c && all_chars p tl
  end.

(** The string without its carriage returns and line feeds. *)
Fixpoint drop_newlines (s : string) : string :=
  match s with
  | EmptyString => EmptyString
  | String c tl =>
      if (c =? LF)%char || (c =? CR)%char then drop_newlines tl
      else String c (drop_newlines tl)
  end.

(** The string without the carriage return it ends with, when it ends
    with one. *)
Fixpoint chop_cr (s : string) : string :=
  match s with
  | EmptyString => EmptyString
  | String c tl =>
      match tl with
      | EmptyString => if (c =? CR)%char then EmptyString else s
      | String _ _ => String c (chop_cr tl)
      end
  end.

(** No dollar sign of the string starts one of the replacement patterns
    [$$], [$&], [$`] and [$']. *)
Fixpoint no_dollar_pattern (s : string) : bool :=
  match s with
  | EmptyString => true
  | String c tl =>
      (if (c =? "$")%char then
         match tl with
         | String d _ =>
             negb ((d =? "$")%char || (d =? "&")%char || (d =? "`")%char
                   || (d =? "'")%char)
         | EmptyString => true
         end
       else true)
      && no_dollar_pattern tl
  end.

(** The matcher matches at none of the first [n] positions. *)
Fixpoint no_match_before (m : string -> option nat) (s : string) (n : nat)
  {struct n} : bool :=
  match n with
  | O => true
  | S n' =>
      match m s with
      | Some _ => false
      | None => match s with
                | EmptyString => true
                | String _ s' => no_match_before m s' n'
                end
      end
  end.

(** The matcher matches nowhere in the string. *)
Definition no_match (m : string -> option nat) (s : string) : bool :=
  no_match_before m s (S (String.length s)).

End JsString.

(** ** modules/adgenerationBidAdapter.js *)

Module Adgeneration.
Import JsString.

(** Data the adapter only passes on. *)
#[warnings="-register-all"]
Inductive json : Type :=
| JNull
| JBool (b : bool)
| JNum (q : Q)
| JStr (s : string)
| JArr (items : list json)
| JObj (fields : list (string * json)).

(** Truthiness of a possibly undefined number. *)
Definition truthy_num (o : option Q) : bool :=
  match o with
  | Some q => negb (Qeq_bool q 0)
  | None => false
  end.

Definition truthy_bool (o : option bool) : bool :=
  match o with
  | Some b => b
  | None => false
  end.

(** [x || d], and [x ? x : d], on numbers. *)
Definition num_or (o : option Q) (d : Q) : Q :=
  match o with
  | Some q => if truthy_num o then q else d
  | None => d
  end.

(** [x || d] on strings. *)
Definition str_or (o : option string) (d : string) : string :=
  match o with
  | Some s => if truthy_str o then s else d
  | None => d
  end.

(** *** Requests *)

(** bid.params: the adapter parameters of a placement. *)
Record Params : Type := {
  param_id : option string;
  param_debug : option bool;
  param_debug_url : option string;
  param_marginTop : option string
}.

Record BidRequest : Type := {
  bidId : string;
  params : Params
}.

Definition BidderRequest : Type := list (string * json).

Record ImpExt : Type := {
  ext_params : option Params;
  ext_rest : list (string * json)
}.

Record Imp : Type := {
  imp_id : string;
  imp_ext : option ImpExt;
  imp_rest : list (string * json)
}.

(** The ORTB request: [{imp, ...otherParams}]. *)
Record Ortb : Type := {
  imp : list Imp;
  otherParams : list (string * json)
}.

Record Payload : Type := {
  locationId : string;
  posall : string;
  sdktype : string;
  hb : string;
  t : string;
  payload_currency : string;
  pbver : string;
  sdkname : string;
  adapterver : string;
  imark : string;
  pb_ortb2 : Ortb
}.

Record Options : Type := {
  withCredentials : bool;
  crossOrigin : bool
}.

Record ServerRequest : Type := {
  method : string;
  url : string;
  data : Payload;
  options : Options
}.

(** The global configuration read through config.getConfig. *)
Record Config : Type := {
  adServerCurrency : option string
}.

(** *** Responses *)

Record AdResult : Type := {
  res_cpm : option Q;
  res_w : option Q;
  res_h : option Q;
  res_ad : option string;
  res_vastxml : option string;
  res_beacon : option string;
  res_ttl : option Q
}.

Record Title : Type := { title_text : option string }.

Record Img : Type := {
  img_url : option string;
  img_h : option Q;
  img_w : option Q
}.

Record Data : Type := { data_value : option string }.

Record Asset : Type := {
  asset_id : option Q;
  asset_title : option Title;
  asset_img : option Img;
  asset_data : option Data
}.

Record Link : Type := {
  link_url : option string;
  link_clicktrackers : option (list string)
}.

Record NativeAd : Type := {
  na_assets : option (list Asset);
  na_link : option Link;
  na_imptrackers : option (list string)
}.

Record LocationOption : Type := { ad_type : option string }.

Record LocationParams : Type := { lp_option : option LocationOption }.

Record Body : Type := {
  body_results : option (list AdResult);
  body_dealid : option string;
  body_adomain : option (list string);
  body_native_ad : option NativeAd;
  body_beaconurl : option string;
  body_location_params : option LocationParams
}.

Record ServerResponse : Type := { response_body : Body }.

(** *** Bids *)

Record Image : Type := {
  image_url : option string;
  image_height : option Q;
  image_width : option Q
}.

Record Native : Type := {
  native_title : option string;
  native_image : option Image;
  native_icon : option Image;
  native_sponsoredBy : option string;
  native_body : option string;
  native_cta : option string;
  native_privacyLink : option string;
  native_clickUrl : option string;
  native_clickTrackers : option (list string);
  native_impressionTrackers : option (list string)
}.

Record Meta : Type := { advertiserDomains : list string }.

Record Bid : Type := {
  requestId : string;
  cpm : Q;
  width : Q;
  height : Q;
  creativeId : AdResult;
  dealId : string;
  currency : string;
  netRevenue : bool;
  ttl : Q;
  meta : option Meta;
  native : option Native;
  mediaType : option string;
  ad : option string
}.

(** *** Constants *)

Definition ADG_BIDDER_CODE : string := "adgeneration".
Definition ADGENE_PREBID_VERSION : string := "1.6.4.dev".
Definition DEBUG_URL : string := "https://api-test.scaleout.jp/adsv/v1".
Definition URL : string := "https://d.socdm.com/adsv/v1".

(** Modelled from the spec: the constant NATIVE of src/mediaTypes.js,
    which is not among the sources; it names the native media type. *)
Definition NATIVE : string := "native".

(** *** Host collaborators

    Functions of the host framework that the adapter calls and that are
    not part of the module: utils.getBidIdParameter, the htmlEscape
    library's escapeUnsafeChars, and the two default builders the ORTB
    converter hands to the adapter's [imp] and [request] hooks. *)
Class Host : Type := {
  getBidIdParameter : string -> option Params -> string;
  escapeUnsafeChars : string -> string;
  buildImp : BidRequest -> Imp;
  buildRequest : list Imp -> BidderRequest -> Ortb
}.

Section Adapter.
Context {host : Host}.

(** Modelled from the spec: utils.deepSetValue is not among the sources.
    [deepSetValue(imp, 'ext.params', value)] attaches the adapter
    parameters to the impression: it stores the value at the path,
    creating [ext] when the impression has none. *)
Definition deepSetValue_ext_params (i : Imp) (p : Params) : Imp :=
  {| imp_id := imp_id i;
     imp_ext := Some {| ext_params := Some p;
                        ext_rest := match imp_ext i with
                                    | Some e => ext_rest e
                                    | None => []
                                    end |};
     imp_rest := imp_rest i |}.

(** The [imp] hook given to ortbConverter. *)
Definition converter_imp (bidRequest : BidRequest) : Imp :=
  let i := buildImp bidRequest in
  deepSetValue_ext_params i (params bidRequest).

(** The [request] hook given to ortbConverter. *)
Definition converter_request (imps : list Imp) (bidderRequest : BidderRequest)
  : Ortb :=
  buildRequest imps bidderRequest.

(** Modelled from the spec: converter.toORTB belongs to the ortbConverter
    library, which is not among the sources.  It converts the batch into
    one request envelope: the [imp] hook builds the impression of each
    bid request and the [request] hook wraps them. *)
Definition toORTB (bidRequests : list BidRequest)
  (bidderRequest : BidderRequest) : Ortb :=
  converter_request (map converter_imp bidRequests) bidderRequest.

Definition isBidRequestValid (bid : BidRequest) : bool :=
  truthy_str (param_id (params bid)).

Definition getCurrencyType (cfg : Config) : string :=
  match adServerCurrency cfg with
  | Some c =>
      if truthy_str (Some c) && (toUpperCase c =? "USD")%string
      then "USD" else "JPY"
  | None => "JPY"
  end.

(** The body of the [imp.map] callback of buildRequests. *)
Definition buildRequest_of_imp (cfg : Config) (other : list (string * json))
  (singleImp : Imp) : result ServerRequest :=
  let customParams :=
    match imp_ext singleImp with
    | Some e => ext_params e
    | None => None
    end in
  cp <- prop_of "debug" customParams ;;
  let url :=
    if truthy_bool (param_debug cp)
    then (if truthy_str (param_debug_url cp)
          then to_string (param_debug_url cp) else DEBUG_URL)
    else URL in
  let id := getBidIdParameter "id" customParams in
  let data :=
    {| locationId := id;
       posall := "SSPLOC";
       sdktype := "0";
       hb := "true";
       t := "json";
       payload_currency := getCurrencyType cfg;
       pbver := "$prebid.version$";
       sdkname := "prebidjs";
       adapterver := ADGENE_PREBID_VERSION;
       imark := "1";
       pb_ortb2 := {| imp := [singleImp]; otherParams := other |} |} in
  Ok {| method := "POST";
        url := url;
        data := data;
        options := {| withCredentials := true; crossOrigin := true |} |}.

Definition buildRequests (cfg : Config) (validBidRequests : list BidRequest)
  (bidderRequest : BidderRequest) : result (list ServerRequest) :=
  let pbOrtb2 := toORTB validBidRequests bidderRequest in
  mapM (buildRequest_of_imp cfg (otherParams pbOrtb2)) (imp pbOrtb2).

(** *** Markup *)

Definition isUpperBillboard (locationParams : option LocationParams) : bool :=
  match locationParams with
  | Some lp =>
      match lp_option lp with
      | Some o =>
          if truthy_str (ad_type o)
          then (to_string (ad_type o) =? "upper_billboard")%string
          else false
      | None => false
      end
  | None => false
  end.

Definition appendChildToBody (ad : option string) (data : option string)
  : result string :=
  a <- prop_of "replace" ad ;;
  Ok (replace_first close_body_re a (to_string data ++ "</body>")).

Definition createAPVTag : string :=
  let APVURL := "https://cdn.apvdr.com/js/VideoAd.min.js" in
  "<script type=" ++ dq ++ "text/javascript" ++ dq ++ " id=" ++ dq ++ "apv"
  ++ dq ++ " src=" ++ dq ++ APVURL ++ dq ++ "></script>".

Definition createADGBrowserMTag : string :=
  let ADGBrowserMURL := "https://i.socdm.com/sdk/js/adg-browser-m.js" in
  "<script type=" ++ dq ++ "text/javascript" ++ dq ++ " src=" ++ dq
  ++ ADGBrowserMURL ++ dq ++ "></script>".

Definition insertVASTMethodForAPV (targetId vastXml : string) : string :=
  let apvVideoAdParam :=
    "{" ++ dq ++ "s" ++ dq ++ ":" ++ JSON_stringify_string targetId ++ "}" in
  "<script type=" ++ dq ++ "text/javascript" ++ dq
  ++ ">(function(){ new APV.VideoAd(" ++ escapeUnsafeChars apvVideoAdParam
  ++ ").load('" ++ replace_crlf_global vastXml ++ "'); })();</script>".

Definition insertVASTMethodForADGBrowserM (vastXml marginTop : string)
  : string :=
  "<script type=" ++ dq ++ "text/javascript" ++ dq
  ++ ">window.ADGBrowserM.init({vastXml: '" ++ replace_crlf_global vastXml
  ++ "', marginTop: '" ++ marginTop ++ "'});</script>".

(** [false] is [None]. *)
Definition removeWrapper (ad : string) : option string :=
  let bodyIndex := indexOf ad "<body>" in
  let lastBodyIndex := lastIndexOf ad "</body>" in
  if (bodyIndex =? -1) || (lastBodyIndex =? -1) then None
  else Some (replace (replace (substr ad bodyIndex lastBodyIndex) "<body>" "")
               "</body>" "").

(** The value of [ad] in createAd before the beacon is appended. *)
Definition createAd_markup (adResult : AdResult)
  (locationPrams : option LocationParams) (bidParams : option Params)
  (requestId : string) : result (option string) :=
  let ad := res_ad adResult in
  match res_vastxml adResult with
  | Some vastxml =>
      if (0 <? String.length vastxml)%nat then
        if isUpperBillboard locationPrams then
          bp <- prop_of "marginTop" bidParams ;;
          let marginTop := str_or (param_marginTop bp) "0" in
          Ok (Some ("<body>" ++ createADGBrowserMTag
                    ++ insertVASTMethodForADGBrowserM vastxml marginTop
                    ++ "</body>"))
        else
          Ok (Some ("<body><div id=" ++ dq ++ "apvad-" ++ requestId ++ dq
                    ++ "></div>" ++ createAPVTag
                    ++ insertVASTMethodForAPV requestId vastxml ++ "</body>"))
      else Ok ad
  | None => Ok ad
  end.

(** The tail of createAd: beacon, then wrapper removal. *)
Definition createAd_finish (ad : option string) (beacon : option string)
  : result string :=
  ad' <- appendChildToBody ad beacon ;;
  match removeWrapper ad' with
  | Some inner => if (inner =? "")%string then Ok ad' else Ok inner
  | None => Ok ad'
  end.

Definition createAd (adResult : AdResult)
  (locationPrams : option LocationParams) (bidParams : option Params)
  (requestId : string) : result string :=
  ad <- createAd_markup adResult locationPrams bidParams requestId ;;
  createAd_finish ad (res_beacon adResult).

(** *** Native ads *)

Definition isNative (body : Body) : result bool :=
  match body_native_ad body with
  | None => Ok false
  | Some na =>
      assets <- prop_of "length" (na_assets na) ;;
      Ok (0 <? List.length assets)%nat
  end.

Definition empty_native : Native :=
  {| native_title := None; native_image := None; native_icon := None;
     native_sponsoredBy := None; native_body := None; native_cta := None;
     native_privacyLink := None; native_clickUrl := None;
     native_clickTrackers := None; native_impressionTrackers := None |}.

Definition image_of (i : Img) : Image :=
  {| image_url := img_url i; image_height := img_h i; image_width := img_w i |}.

Definition is_id (a : Asset) (n : Q) : bool :=
  match asset_id a with
  | Some q => Qeq_bool q n
  | None => false
  end.

(** One turn of the loop of createNativeAd: the switch on assets[i].id. *)
Definition native_asset (n : Native) (a : Asset) : result Native :=
  if is_id a 1 then
    x <- prop_of "text" (asset_title a) ;;
    Ok {| native_title := title_text x;
          native_image := native_image n; native_icon := native_icon n;
          native_sponsoredBy := native_sponsoredBy n;
          native_body := native_body n; native_cta := native_cta n;
          native_privacyLink := native_privacyLink n;
          native_clickUrl := native_clickUrl n;
          native_clickTrackers := native_clickTrackers n;
          native_impressionTrackers := native_impressionTrackers n |}
  else if is_id a 2 then
    x <- prop_of "url" (asset_img a) ;;
    Ok {| native_title := native_title n;
          native_image := Some (image_of x); native_icon := native_icon n;
          native_sponsoredBy := native_sponsoredBy n;
          native_body := native_body n; native_cta := native_cta n;
          native_privacyLink := native_privacyLink n;
          native_clickUrl := native_clickUrl n;
          native_clickTrackers := native_clickTrackers n;
          native_impressionTrackers := native_impressionTrackers n |}
  else if is_id a 3 then
    x <- prop_of "url" (asset_img a) ;;
    Ok {| native_title := native_title n;
          native_image := native_image n; native_icon := Some (image_of x);
          native_sponsoredBy := native_sponsoredBy n;
          native_body := native_body n; native_cta := native_cta n;
          native_privacyLink := native_privacyLink n;
          native_clickUrl := native_clickUrl n;
          native_clickTrackers := native_clickTrackers n;
          native_impressionTrackers := native_impressionTrackers n |}
  else if is_id a 4 then
    x <- prop_of "value" (asset_data a) ;;
    Ok {| native_title := native_title n;
          native_image := native_image n; native_icon := native_icon n;
          native_sponsoredBy := data_value x;
          native_body := native_body n; native_cta := native_cta n;
          native_privacyLink := native_privacyLink n;
          native_clickUrl := native_clickUrl n;
          native_clickTrackers := native_clickTrackers n;
          native_impressionTrackers := native_impressionTrackers n |}
  else if is_id a 5 then
    x <- prop_of "value" (asset_data a) ;;
    Ok {| native_title := native_title n;
          native_image := native_image n; native_icon := native_icon n;
          native_sponsoredBy := native_sponsoredBy n;
          native_body := data_value x; native_cta := native_cta n;
          native_privacyLink := native_privacyLink n;
          native_clickUrl := native_clickUrl n;
          native_clickTrackers := native_clickTrackers n;
          native_impressionTrackers := native_impressionTrackers n |}
  else if is_id a 6 then
    x <- prop_of "value" (asset_data a) ;;
    Ok {| native_title := native_title n;
          native_image := native_image n; native_icon := native_icon n;
          native_sponsoredBy := native_sponsoredBy n;
          native_body := native_body n; native_cta := data_value x;
          native_privacyLink := native_privacyLink n;
          native_clickUrl := native_clickUrl n;
          native_clickTrackers := native_clickTrackers n;
          native_impressionTrackers := native_impressionTrackers n |}
  else if is_id a 502 then
    x <- prop_of "value" (asset_data a) ;;
    Ok {| native_title := native_title n;
          native_image := native_image n; native_icon := native_icon n;
          native_sponsoredBy := native_sponsoredBy n;
          native_body := native_body n; native_cta := native_cta n;
          native_privacyLink :=
            Some (encodeURIComponent (to_string (data_value x)));
          native_clickUrl := native_clickUrl n;
          native_clickTrackers := native_clickTrackers n;
          native_impressionTrackers := native_impressionTrackers n |}
  else Ok n.

(** [xs || []]: an array, even an empty one, is truthy. *)
Definition list_or_empty (o : option (list string)) : list string :=
  match o with
  | Some l => l
  | None => []
  end.

Definition createNativeAd (nativeAd : option NativeAd)
  (beaconUrl : option string) : result Native :=
  match nativeAd with
  | None => Ok empty_native
  | Some na =>
      assets <- prop_of "length" (na_assets na) ;;
      if (0 <? List.length assets)%nat then
        n <- foldM native_asset assets empty_native ;;
        link <- prop_of "url" (na_link na) ;;
        let clickTrackers := list_or_empty (link_clicktrackers link) in
        let impressionTrackers := list_or_empty (na_imptrackers na) in
        let impressionTrackers :=
          if truthy_str beaconUrl
          then (impressionTrackers ++ [to_string beaconUrl])%list
          else impressionTrackers in
        Ok {| native_title := native_title n;
              native_image := native_image n; native_icon := native_icon n;
              native_sponsoredBy := native_sponsoredBy n;
              native_body := native_body n; native_cta := native_cta n;
              native_privacyLink := native_privacyLink n;
              native_clickUrl := link_url link;
              native_clickTrackers := Some clickTrackers;
              native_impressionTrackers := Some impressionTrackers |}
      else Ok empty_native
  end.

(** *** interpretResponse *)

(** The object literal assigned to bidResponse. *)
Definition bidResponse_init (cfg : Config) (body : Body) (adResult : AdResult)
  (requestId : string) : Bid :=
  {| requestId := requestId;
     cpm := num_or (res_cpm adResult) 0;
     width := num_or (res_w adResult) 1;
     height := num_or (res_h adResult) 1;
     creativeId := adResult;
     dealId := str_or (body_dealid body) "";
     currency := getCurrencyType cfg;
     netRevenue := true;
     ttl := num_or (res_ttl adResult) 10;
     meta := None;
     native := None;
     mediaType := None;
     ad := None |}.

Definition set_meta (b : Bid) (m : Meta) : Bid :=
  {| requestId := requestId b; cpm := cpm b; width := width b;
     height := height b; creativeId := creativeId b; dealId := dealId b;
     currency := currency b; netRevenue := netRevenue b; ttl := ttl b;
     meta := Some m; native := native b; mediaType := mediaType b;
     ad := ad b |}.

Definition set_native (b : Bid) (n : Native) (mt : string) : Bid :=
  {| requestId := requestId b; cpm := cpm b; width := width b;
     height := height b; creativeId := creativeId b; dealId := dealId b;
     currency := currency b; netRevenue := netRevenue b; ttl := ttl b;
     meta := meta b; native := Some n; mediaType := Some mt;
     ad := ad b |}.

Definition set_ad (b : Bid) (a : string) : Bid :=
  {| requestId := requestId b; cpm := cpm b; width := width b;
     height := height b; creativeId := creativeId b; dealId := dealId b;
     currency := currency b; netRevenue := netRevenue b; ttl := ttl b;
     meta := meta b; native := native b; mediaType := mediaType b;
     ad := Some a |}.

(** [body.adomain && Array.isArray(body.adomain) && body.adomain.length] *)
Definition has_adomain (body : Body) : bool :=
  match body_adomain body with
  | Some (_ :: _) => true
  | _ => false
  end.

Definition interpretResponse (cfg : Config) (serverResponse : ServerResponse)
  (bidRequests : ServerRequest) : result (list Bid) :=
  let body := response_body serverResponse in
  match body_results body with
  | None => Ok []
  | Some [] => Ok []
  | Some (adResult :: _) =>
      targetImp <-
        prop_of "id" (nth_error (imp (pb_ortb2 (data bidRequests))) 0) ;;
      let requestId := imp_id targetImp in
      let bidResponse := bidResponse_init cfg body adResult requestId in
      let bidResponse :=
        if has_adomain body
        then set_meta bidResponse
               {| advertiserDomains := list_or_empty (body_adomain body) |}
        else bidResponse in
      is_native <- isNative body ;;
      if is_native then
        n <- createNativeAd (body_native_ad body) (body_beaconurl body) ;;
        Ok [set_native bidResponse n NATIVE]
      else
        ext <- prop_of "params" (imp_ext targetImp) ;;
        a <- createAd adResult (body_location_params body) (ext_params ext)
               requestId ;;
        Ok [set_ad bidResponse a]
  end.

Definition getUserSyncs (syncOptions : list (string * json))
  (serverResponses : list ServerResponse) : list string :=
  let syncs := [] in
  syncs.

End Adapter.

(** *** Predicates used to state the properties *)

(** "USD" in any mix of upper and lower case. *)
Definition is_usd_any_case (s : string) : bool :=
  match s with
  | String a (String b (String c EmptyString)) =>
      ((a =? "U") || (a =? "u"))%char && ((b =? "S") || (b =? "s"))%char
      && ((c =? "D") || (c =? "d"))%char
  | _ => false
  end.

Definition configured_usd (cfg : Config) : bool :=
  match adServerCurrency cfg with
  | Some s => is_usd_any_case s
  | None => false
  end.

(** The endpoint the adapter parameters select. *)
Definition endpoint_for (p : Params) : string :=
  match param_debug p with
  | Some true =>
      match param_debug_url p with
      | Some u => if (u =? "")%string then DEBUG_URL else u
      | None => DEBUG_URL
      end
  | _ => URL
  end.

(** What a request says about the impression it was built from. *)
Definition built_from (i : Imp) (p : Params) (req : ServerRequest) : Prop :=
  method req = "POST"
  /\ withCredentials (options req) = true
  /\ crossOrigin (options req) = true
  /\ imp (pb_ortb2 (data req)) = [i]
  /\ url req = endpoint_for p.

(** The three kinds of banner creative. *)
Inductive Creative : Type :=
| ServerMarkup
| BrowserMPlayer (vastxml : string)
| ApvPlayer (vastxml : string).

Definition placement_ad_type (l : option LocationParams) : option string :=
  match l with
  | Some {| lp_option := Some {| ad_type := a |} |} => a
  | _ => None
  end.

Definition creative_kind (adResult : AdResult) (l : option LocationParams)
  : Creative :=
  match res_vastxml adResult with
  | None => ServerMarkup
  | Some EmptyString => ServerMarkup
  | Some v =>
      match placement_ad_type l with
      | Some a => if (a =? "upper_billboard")%string
                  then BrowserMPlayer v else ApvPlayer v
      | None => ApvPlayer v
      end
  end.

(** The markup of each kind of creative, before the beacon and wrapper
    steps.  [escape] is the library's escapeUnsafeChars. *)
Definition creative_markup (escape : string -> string) (adResult : AdResult)
  (l : option LocationParams) (bp : Params) (requestId : string)
  : option string :=
  match creative_kind adResult l with
  | ServerMarkup => res_ad adResult
  | BrowserMPlayer v =>
      Some ("<body><script type=" ++ dq ++ "text/javascript" ++ dq
            ++ " src=" ++ dq
            ++ "https://i.socdm.com/sdk/js/adg-browser-m.js" ++ dq
            ++ "></script><script type=" ++ dq ++ "text/javascript"
            ++ dq ++ ">window.ADGBrowserM.init({vastXml: '"
            ++ replace_crlf_global v ++ "', marginTop: '"
            ++ match param_marginTop bp with
               | Some EmptyString => "0"
               | Some m => m
               | None => "0"
               end
            ++ "'});</script></body>")
  | ApvPlayer v =>
      Some ("<body><div id=" ++ dq ++ "apvad-" ++ requestId ++ dq
            ++ "></div><script type=" ++ dq ++ "text/javascript" ++ dq
            ++ " id=" ++ dq ++ "apv" ++ dq ++ " src=" ++ dq
            ++ "https://cdn.apvdr.com/js/VideoAd.min.js" ++ dq
            ++ "></script><script type=" ++ dq ++ "text/javascript"
            ++ dq ++ ">(function(){ new APV.VideoAd("
            ++ escape ("{" ++ dq ++ "s" ++ dq ++ ":" ++ dq
                       ++ json_escape requestId ++ dq ++ "}")
            ++ ").load('" ++ replace_crlf_global v
            ++ "'); })();</script></body>")
  end.

(** The bid built from the first result [r] of a body: the result's
    numbers or their defaults, and a meta exactly for a non-empty
    adomain. *)
Definition first_result_bid (body : Body) (r : AdResult) (b : Bid) : Prop :=
  creativeId b = r
  /\ cpm b = match res_cpm r with
             | Some c => if Qeq_bool c 0 then 0%Q else c
             | None => 0%Q
             end
  /\ width b = match res_w r with
               | Some c => if Qeq_bool c 0 then 1%Q else c
               | None => 1%Q
               end
  /\ height b = match res_h r with
                | Some c => if Qeq_bool c 0 then 1%Q else c
                | None => 1%Q
                end
  /\ ttl b = match res_ttl r with
             | Some c => if Qeq_bool c 0 then 10%Q else c
             | None => 10%Q
             end
  /\ meta b = match body_adomain body with
              | Some (d :: ds) => Some {| advertiserDomains := d :: ds |}
              | _ => None
              end.

(** An asset carries the subfield its id code calls for. *)
Definition asset_ok (a : Asset) : bool :=
  if is_id a 1 then
    match asset_title a with Some _ => true | None => false end
  else if is_id a 2 || is_id a 3 then
    match asset_img a with Some _ => true | None => false end
  else if is_id a 4 || is_id a 5 || is_id a 6 || is_id a 502 then
    match asset_data a with Some _ => true | None => false end
  else true.

(** The first result has markup to serve: [ad], or a non-empty vastxml. *)
Definition banner_ok (r : AdResult) : bool :=
  match res_vastxml r, res_ad r with
  | Some (String _ _), _ => true
  | _, Some _ => true
  | _, None => false
  end.

(** The bodies interpretResponse has no missing property on. *)
Definition response_ok (body : Body) : bool :=
  match body_results body with
  | None => true
  | Some [] => true
  | Some (r :: _) =>
      match body_native_ad body with
      | None => banner_ok r
      | Some na =>
          match na_assets na with
          | None => false
          | Some [] => banner_ok r
          | Some assets =>
              forallb asset_ok assets
              && match na_link na with Some _ => true | None => false end
          end
      end
  end.

(** The request carries an impression with adapter parameters, as every
    request buildRequests returns does. *)
Definition request_ok (req : ServerRequest) : bool :=
  match imp (pb_ortb2 (data req)) with
  | i :: _ =>
      match imp_ext i with
      | Some e => match ext_params e with Some _ => true | None => false end
      | None => false
      end
  | [] => false
  end.

Definition with_results (resp : ServerResponse) (rs : option (list AdResult))
  : ServerResponse :=
  let b := response_body resp in
  {| response_body :=
       {| body_results := rs;
          body_dealid := body_dealid b;
          body_adomain := body_adomain b;
          body_native_ad := body_native_ad b;
          body_beaconurl := body_beaconurl b;
          body_location_params := body_location_params b |} |}.

(** The impression carries adapter parameters at ext.params. *)
Definition has_params (i : Imp) : bool :=
  match imp_ext i with
  | Some e => match ext_params e with Some _ => true | None => false end
  | None => false
  end.

(** The body takes the native branch: native_ad with a non-empty assets
    array. *)
Definition body_is_native (body : Body) : bool :=
  match body_native_ad body with
  | Some na =>
      match na_assets na with
      | Some (_ :: _) => true
      | _ => false
      end
  | None => false
  end.

(** The asset's id is one of the codes createNativeAd switches on. *)
Definition known_asset (a : Asset) : bool :=
  is_id a 1 || is_id a 2 || is_id a 3 || is_id a 4 || is_id a 5
  || is_id a 6 || is_id a 502.

Definition with_assets (na : NativeAd) (assets : list Asset) : NativeAd :=
  {| na_assets := Some assets; na_link := na_link na;
     na_imptrackers := na_imptrackers na |}.

(** A character encodeURIComponent may leave in its output. *)
Definition uri_safe (c : ascii) : bool :=
  uri_unreserved c || (c =? "%")%char.

(** *** A host to run the adapter against *)

Definition sample_host : Host :=
  {| getBidIdParameter := fun _ p =>
       match p with
       | Some q => str_or (param_id q) ""
       | None => ""
       end;
     escapeUnsafeChars := fun s => s;
     buildImp := fun b =>
       {| imp_id := bidId b; imp_ext := None; imp_rest := [] |};
     buildRequest := fun imps br => {| imp := imps; otherParams := br |} |}.

Definition sample_params (debug : option bool) : Params :=
  {| param_id := Some "58278"; param_debug := debug;
     param_debug_url := None; param_marginTop := None |}.

Definition sample_bids : list BidRequest :=
  [ {| bidId := "2f6ac468a9c15e"; params := sample_params None |};
    {| bidId := "3a1b9e77c0d2f4"; params := sample_params (Some true) |} ].

Definition sample_result : AdResult :=
  {| res_cpm := Some (36 # 1); res_w := Some (320 # 1); res_h := None;
     res_ad := Some "<body><div>creative</div></body>";
     res_vastxml := None; res_beacon := Some "<img src=beacon>";
     res_ttl := None |}.

Definition sample_response : ServerResponse :=
  {| response_body :=
       {| body_results := Some [sample_result; sample_result];
          body_dealid := None;
          body_adomain := Some ["advertiser.example"];
          body_native_ad := None;
          body_beaconurl := None;
          body_location_params := None |} |}.

(** The requests built for the sample batch, and the first of them. *)
Definition sample_requests : list ServerRequest :=
  Eval vm_compute in
    match @buildRequests sample_host {| adServerCurrency := None |}
            sample_bids [] with
    | Ok reqs => reqs
    | Throw _ => []
    end.

Definition sample_request : ServerRequest :=
  Eval vm_compute in
    match sample_requests with
    | req :: _ => req
    | [] => {| method := ""; url := "";
               data := {| locationId := ""; posall := ""; sdktype := "";
                          hb := ""; t := ""; payload_currency := "";
                          pbver := ""; sdkname := ""; adapterver := "";
                          imark := "";
                          pb_ortb2 := {| imp := []; otherParams := [] |} |};
               options := {| withCredentials := false;
                             crossOrigin := false |} |}
    end.

(** The bids the adapter returns for the sample response. *)
Definition sample_bids_out : list Bid :=
  Eval vm_compute in
    match @interpretResponse sample_host {| adServerCurrency := None |}
            sample_response sample_request with
    | Ok bids => bids
    | Throw _ => []
    end.



(** A banner response whose first result has a price and neither [ad]
    nor vastxml. *)
Definition result_without_markup : AdResult :=
  {| res_cpm := Some (10 # 1); res_w := Some (300 # 1);
     res_h := Some (250 # 1); res_ad := None; res_vastxml := None;
     res_beacon := None; res_ttl := None |}.

Definition banner_without_markup : ServerResponse :=
  {| response_body :=
       {| body_results := Some [result_without_markup];
          body_dealid := None;
          body_adomain := None;
          body_native_ad := None;
          body_beaconurl := None;
          body_location_params := None |} |}.

(** Video responses.  The first has a VAST document of two lines ended by
    carriage return and line feed and goes to an upper_billboard
    placement; the second has a carriage return alone between its two
    lines. *)
Definition vast_result (vastxml : string) : AdResult :=
  {| res_cpm := Some (36 # 1); res_w := None; res_h := None;
     res_ad := Some "<div>fallback</div>"; res_vastxml := Some vastxml;
     res_beacon := Some "<img src=beacon>"; res_ttl := None |}.

Definition vast_response : ServerResponse :=
  {| response_body :=
       {| body_results :=
            Some [vast_result
                    ("<VAST>" ++ String CR (String LF "</VAST>")
                     ++ String CR (String LF ""))];
          body_dealid := None;
          body_adomain := None;
          body_native_ad := None;
          body_beaconurl := None;
          body_location_params :=
            Some {| lp_option :=
                      Some {| ad_type := Some "upper_billboard" |} |} |} |}.

Definition vast_cr_response : ServerResponse :=
  {| response_body :=
       {| body_results :=
            Some [vast_result ("<VAST>" ++ String CR "</VAST>")];
          body_dealid := None;
          body_adomain := None;
          body_native_ad := None;
          body_beaconurl := None;
          body_location_params := None |} |}.

(** A title asset, a sponsor asset and an asset with an id the adapter
    does not know. *)
Definition title_asset (text : string) : Asset :=
  {| asset_id := Some (1 # 1);
     asset_title := Some {| title_text := Some text |};
     asset_img := None; asset_data := None |}.

Definition sponsor_asset (name : string) : Asset :=
  {| asset_id := Some (4 # 1); asset_title := None; asset_img := None;
     asset_data := Some {| data_value := Some name |} |}.

Definition unknown_asset : Asset :=
  {| asset_id := Some (9 # 1); asset_title := None; asset_img := None;
     asset_data := None |}.

(** A native response: title, sponsor and privacy link, one asset with
    an id the adapter does not know, trackers and a beacon. *)
Definition sample_native_ad : NativeAd :=
  {| na_assets :=
       Some [ {| asset_id := Some (1 # 1);
                 asset_title := Some {| title_text := Some "title text" |};
                 asset_img := None; asset_data := None |};
              {| asset_id := Some (9 # 1); asset_title := None;
                 asset_img := None; asset_data := None |};
              {| asset_id := Some (4 # 1); asset_title := None;
                 asset_img := None;
                 asset_data := Some {| data_value := Some "Acme" |} |};
              {| asset_id := Some (502 # 1); asset_title := None;
                 asset_img := None;
                 asset_data :=
                   Some {| data_value := Some "https://optout?a=1&b=2" |} |} ];
     na_link := Some {| link_url := Some "https://click";
                        link_clicktrackers := None |};
     na_imptrackers := Some ["https://imp1"] |}.

Definition sample_native_response : ServerResponse :=
  {| response_body :=
       {| body_results := Some [sample_result];
          body_dealid := Some "deal-7";
          body_adomain := None;
          body_native_ad := Some sample_native_ad;
          body_beaconurl := Some "https://beacon";
          body_location_params := None |} |}.

End Adgeneration.

(** ** modules/novatiqIdSystem.js *)

Module Novatiq.
Import JsString.

(** configParams.sourceid *)
Inductive sourceid_t : Type :=
| SrcUndefined
| SrcNull
| SrcString (s : string).

Record ConfigParams : Type := { sourceid : sourceid_t }.

(** The submodule configuration; [config.params] may be absent. *)
Record SubmoduleConfig : Type := { config_params : option ConfigParams }.

Record Snowflake : Type := { snowflake : string }.

Record Decoded : Type := { novatiq : Snowflake }.

Definition decode (novatiqId : string) : Decoded :=
  let responseObj := {| novatiq := {| snowflake := novatiqId |} |} in
  responseObj.

(** *** getSrcId *)

Definition isHex (str : string) : bool :=
  let a := parseInt16 str in
  (toString16 a =? str)%string.

Definition getSrcId (configParams : ConfigParams) : string :=
  match sourceid configParams with
  | SrcUndefined => "000"
  | SrcNull => "000"
  | SrcString s =>
      if (s =? "")%string then "000"
      else if (len s <? 3) || (len s >? 3) then "001"
      else if Bool.eqb (isHex s) false then "002"
      else s
  end.

(** *** snowflakeId *)

(** [[1e7] + -1e3 + -4e3 + -8e3 + -1e11 + 1e3]: string concatenation of
    the numbers' decimal renderings. *)
Definition snowflake_template : string :=
  num_to_string 10000000 ++ num_to_string (-1000) ++ num_to_string (-4000)
  ++ num_to_string (-8000) ++ num_to_string (-100000000000)
  ++ num_to_string 1000.

(** The character class [[018]]. *)
Definition is_018 (c : ascii) : bool :=
  (c =? "0")%char || (c =? "1")%char || (c =? "8")%char.

(** [Math.random() * 16] as the operand of [>>]: truncated to an integer. *)
Definition scaled_random (r : Q) : Z := Qfloor (r * 16).

(** snowflakeId(placeholder) for a matched digit:
    [(placeholder ^ Math.random() * 16 >> placeholder / 4).toString(16)],
    where [r] is the value Math.random() returned. *)
Definition snowflake_digit (placeholder : ascii) (r : Q) : string :=
  let p := code placeholder - 48 in
  toString16 (Some (Z.lxor p (Z.shiftr (scaled_random r) (p / 4)))).

(** [.replace(/[018]/g, snowflakeId)]; [random k] is what the k-th call
    of Math.random returns. *)
Fixpoint replace_018 (random : nat -> Q) (k : nat) (s : string) : string :=
  match s with
  | EmptyString => EmptyString
  | String c tl =>
      if is_018 c
      then snowflake_digit c (random k) ++ replace_018 random (S k) tl
      else String c (replace_018 random k tl)
  end.

(** snowflakeId() *)
Definition snowflakeId (random : nat -> Q) : string :=
  replace_018 random 0 snowflake_template.

(** *** getId *)

Record IdObject : Type := { id : string }.

Record AjaxOptions : Type := {
  ajax_method : string;
  ajax_withCredentials : bool
}.

Record AjaxCall : Type := {
  call_url : string;
  call_data : option string;
  call_options : AjaxOptions
}.

(** window.nlocvalue, the requests handed to the transport and the
    objects the completion callback received. *)
Record World : Type := {
  nlocvalue : Z;
  sent : list AjaxCall;
  received : list IdObject
}.

(** The module's top level: [window.nlocvalue = 0]. *)
Definition initial_world : World :=
  {| nlocvalue := 0; sent := []; received := [] |}.

Definition set_nlocvalue (w : World) (v : Z) : World :=
  {| nlocvalue := v; sent := sent w; received := received w |}.

Definition record_call (w : World) (c : AjaxCall) : World :=
  {| nlocvalue := nlocvalue w; sent := sent w ++ [c]; received := received w |}.

(** The host's completion callback: it records what it is given. *)
Definition deliver (o : IdObject) (w : World) : World :=
  {| nlocvalue := nlocvalue w; sent := sent w; received := received w ++ [o] |}.

Record XhrResponse : Type := { status : Z }.

(** How the exchange ends. *)
Inductive Outcome : Type :=
| Success (response : string) (responseObj : XhrResponse)
| Failure.

Record Callbacks : Type := {
  success : option (string -> XhrResponse -> World -> World);
  error : option (World -> World)
}.

(** Modelled from the spec: ajax (src/ajax.js) is the host's HTTP
    transport and is not among the sources.  It issues the call and, when
    the exchange ends, runs the handler registered for that ending; an
    ending with no handler registered runs nothing. *)
Definition ajax (url : string) (callbacks : Callbacks) (data : option string)
  (options : AjaxOptions) (o : Outcome) (w : World) : World :=
  let w' := record_call w {| call_url := url; call_data := data;
                             call_options := options |} in
  match o with
  | Success response responseObj =>
      match success callbacks with
      | Some f => f response responseObj w'
      | None => w'
      end
  | Failure =>
      match error callbacks with
      | Some f => f w'
      | None => w'
      end
  end.

Definition onSuccess (novatiqId : string) (cb : IdObject -> World -> World)
  (response : string) (responseObj : XhrResponse) (w : World) : World :=
  let w := set_nlocvalue w 0 in
  let syncrc := status responseObj in
  let w :=
    if syncrc =? 200 then set_nlocvalue w 1
    else if syncrc =? 204 then set_nlocvalue w 2
    else w in
  cb {| id := novatiqId |} w.

Definition getNlocvalue (url novatiqId : string)
  (cb : IdObject -> World -> World) : Outcome -> World -> World :=
  ajax url {| success := Some (onSuccess novatiqId cb); error := None |} None
    {| ajax_method := "GET"; ajax_withCredentials := false |}.

(** What getId returns: the function the host calls with its completion
    callback. *)
Record IdResponse : Type := {
  callback : (IdObject -> World -> World) -> Outcome -> World -> World
}.

(** getId draws its random numbers when it is called; the request goes
    out when the host runs the returned callback. *)
Definition getId (random : nat -> Q) (config : SubmoduleConfig) : IdResponse :=
  let configParams :=
    match config_params config with
    | Some p => p
    | None => {| sourceid := SrcUndefined |}
    end in
  let srcId := getSrcId configParams in
  let novatiqId := snowflakeId random in
  let url := "https://spadsync.com/sync?sptoken=" ++ novatiqId in
  {| callback := fun cb => getNlocvalue url novatiqId (fun id => cb id) |}.

(** *** Predicates used to state the properties *)

Definition is_hex_char (c : ascii) : bool :=
  match hex_value c with
  | Some _ => true
  | None => false
  end.

(** A string of hexadecimal digits, in either case. *)
Fixpoint all_hex (s : string) : bool :=
  match s with
  | EmptyString => true
  | String c tl => is_hex_char c && all_hex tl
  end.

Definition is_lower_hex (c : ascii) : bool :=
  let n := code c in
  ((48 <=? n) && (n <=? 57)) || ((97 <=? n) && (n <=? 102)).

(** A string against a layout: [x] stands for a digit 0-9a-f, [y] for one
    of 8, 9, a, b, any other layout character for itself. *)
Fixpoint matches_layout (layout s : string) : bool :=
  match layout, s with
  | EmptyString, EmptyString => true
  | String l layout', String c s' =>
      (if (l =? "x")%char then is_lower_hex c
       else if (l =? "y")%char then (8 <=? code c - 48) && (code c - 48 <=? 9)
                                    || (c =? "a")%char || (c =? "b")%char
       else (c =? l)%char)
      && matches_layout layout' s'
  | _, _ => false
  end.

(** The layout a template character leaves behind. *)
Definition layout_char (c : ascii) : ascii :=
  if (c =? "8")%char then "y"%char
  else if is_018 c then "x"%char
  else c.

Fixpoint layout_of (template : string) : string :=
  match template with
  | EmptyString => EmptyString
  | String c tl => String (layout_char c) (layout_of tl)
  end.

(** The value the status indicator takes for a response status. *)
Definition status_indicator (syncrc : Z) : Z :=
  if syncrc =? 200 then 1 else if syncrc =? 204 then 2 else 0.

(** The one call getId hands to the transport. *)
Definition sync_call (novatiqId : string) : AjaxCall :=
  {| call_url := "https://spadsync.com/sync?sptoken=" ++ novatiqId;
     call_data := None;
     call_options := {| ajax_method := "GET";
                        ajax_withCredentials := false |} |}.

(** The three-character strings the last rung of getSrcId lets through:
    three lower-case hexadecimal digits with a first digit other than 0,
    a minus sign before two such digits, or the text NaN. *)
Definition accepted_sourceid (s : string) : bool :=
  match s with
  | String a (String b (String c EmptyString)) =>
      (is_lower_hex a && negb (a =? "0")%char && is_lower_hex b
       && is_lower_hex c)
      || ((a =? "-")%char && is_lower_hex b && negb (b =? "0")%char
          && is_lower_hex c)
      || (s =? "NaN")%string
  | _ => false
  end.

(** The digit a placeholder stands for once the scaled random value [n]
    is known: the placeholder's value XOR-ed with [n] shifted right by a
    quarter of that value. *)
Definition xor_digit (placeholder : ascii) (n : Z) : ascii :=
  let p := code placeholder - 48 in
  hex_digit (Z.lxor p (Z.shiftr n (p / 4))).

(** The number of characters of the class [[018]]. *)
Fixpoint count_018 (s : string) : nat :=
  match s with
  | EmptyString => O
  | String c tl => if is_018 c then S (count_018 tl) else count_018 tl
  end.






End Novatiq.

(** * Properties of novatiqIdSystem *)

Module NovatiqFacts.
Import JsString Novatiq.

(** ** getSrcId *)

Lemma getSrcId_unset (p : ConfigParams) :
  sourceid p = SrcUndefined \/ sourceid p = SrcNull
  \/ sourceid p = SrcString "" ->
  getSrcId p = "000".
Proof.
  unfold getSrcId. intros [H | [H | H]]; rewrite H; reflexivity.
Qed.

Lemma getSrcId_wrong_length (p : ConfigParams) (s : string) :
  sourceid p = SrcString s -> s <> "" -> String.length s <> 3%nat ->
  getSrcId p = "001".
Proof.
  intros Hp Hne Hlen. unfold getSrcId. rewrite Hp.
  destruct (String.eqb_spec s "") as [E | _]; [contradiction |].
  unfold len.
  destruct (Z.ltb_spec (Z.of_nat (String.length s)) 3) as [L | L];
    [reflexivity |].
  destruct (Z.gtb_spec (Z.of_nat (String.length s)) 3) as [G | G];
    [reflexivity | lia].
Qed.

Lemma getSrcId_three_chars (p : ConfigParams) (s : string) :
  sourceid p = SrcString s -> String.length s = 3%nat ->
  getSrcId p = if isHex s then s else "002".
Proof.
  intros Hp Hlen. unfold getSrcId. rewrite Hp.
  destruct (String.eqb_spec s "") as [E | _].
  - subst s. discriminate Hlen.
  - unfold len. rewrite Hlen. simpl. destruct (isHex s); reflexivity.
Qed.

(** What the last rung lets through: the strings toString(16) prints for
    the numbers from 0x100 to 0xfff, three lower-case digits with no
    leading zero. *)
Lemma getSrcId_printed_hex (n : Z) :
  256 <= n < 4096 ->
  getSrcId {| sourceid := SrcString (toString16 (Some n)) |}
  = toString16 (Some n).
Proof.
  intros H.
  assert (F : forallb
                (fun k =>
                   (getSrcId {| sourceid :=
                                  SrcString (toString16 (Some (Z.of_nat k))) |}
                    =? toString16 (Some (Z.of_nat k)))%string)
                (seq 256 3840) = true) by (vm_compute; reflexivity).
  rewrite forallb_forall in F.
  specialize (F (Z.to_nat n)).
  rewrite Z2Nat.id in F by lia.
  apply String.eqb_eq, F, in_seq. lia.
Qed.

(** C4: the ladder's last rung tests whether the string is what
    [parseInt(s, 16).toString(16)] prints, not whether it is hexadecimal.
    The three-character hexadecimal strings "1aF" and "00f" get "002"
    instead of passing through, and "NaN", which is not hexadecimal,
    passes through unchanged. *)
Theorem getSrcId_hex_rung_divergence :
  all_hex "1aF" = true
  /\ getSrcId {| sourceid := SrcString "1aF" |} = "002"
  /\ all_hex "00f" = true
  /\ getSrcId {| sourceid := SrcString "00f" |} = "002"
  /\ all_hex "NaN" = false
  /\ getSrcId {| sourceid := SrcString "NaN" |} = "NaN".
Proof.
  repeat split; vm_compute; reflexivity.
Qed.

(** ** snowflakeId *)

Lemma scaled_random_range (r : Q) :
  (0 <= r)%Q /\ (r < 1)%Q -> 0 <= scaled_random r < 16.
Proof.
  intros [H0 H1]. destruct r as [n d].
  unfold scaled_random, Qle, Qlt, Qfloor in *. simpl in *.
  rewrite Pos.mul_1_r. split.
  - apply Z.div_pos; lia.
  - apply Z.div_lt_upper_bound; lia.
Qed.

(** A property of every integer from 0 to 15, checked one by one. *)
Lemma nibble_cases (P : Z -> Prop) (n : Z) :
  0 <= n < 16 -> Forall P (map Z.of_nat (seq 0 16)) -> P n.
Proof.
  intros H F. rewrite Forall_forall in F. apply F.
  replace n with (Z.of_nat (Z.to_nat n)) by lia.
  apply in_map, in_seq. lia.
Qed.

Ltac by_nibbles :=
  cbv [map seq];
  repeat (constructor; [eexists; split; vm_compute; reflexivity |]);
  constructor.

Lemma snowflake_digit_01 (c : ascii) (r : Q) :
  c = "0"%char \/ c = "1"%char -> (0 <= r)%Q /\ (r < 1)%Q ->
  exists d, snowflake_digit c r = String d "" /\ is_lower_hex d = true.
Proof.
  intros Hc Hr. apply scaled_random_range in Hr.
  unfold snowflake_digit. revert Hr. generalize (scaled_random r).
  intros n Hn. pattern n. apply nibble_cases; [exact Hn |].
  destruct Hc as [-> | ->]; by_nibbles.
Qed.

Lemma snowflake_digit_8 (r : Q) :
  (0 <= r)%Q /\ (r < 1)%Q ->
  exists d, snowflake_digit "8" r = String d ""
            /\ ((8 <=? code d - 48) && (code d - 48 <=? 9)
                || (d =? "a")%char || (d =? "b")%char) = true.
Proof.
  intros Hr. apply scaled_random_range in Hr.
  unfold snowflake_digit. revert Hr. generalize (scaled_random r).
  intros n Hn. pattern n. apply nibble_cases; [exact Hn |].
  by_nibbles.
Qed.

Lemma matches_layout_length (layout s : string) :
  matches_layout layout s = true -> String.length s = String.length layout.
Proof.
  revert s. induction layout as [| l layout IH]; intros [| c s] H;
    simpl in *; try discriminate; [reflexivity |].
  apply andb_true_iff in H. destruct H as [_ H]. f_equal. auto.
Qed.

(** Substitution leaves hyphens and the 4 in place and puts one digit
    where a 0, 1 or 8 stood. *)
Lemma replace_018_layout (random : nat -> Q) :
  (forall k, (0 <= random k)%Q /\ (random k < 1)%Q) ->
  forall (template : string) (k : nat),
    (forall c, In c (list_ascii_of_string template) ->
               is_018 c = true \/ c = "-"%char \/ c = "4"%char) ->
    matches_layout (layout_of template) (replace_018 random k template) = true.
Proof.
  intros Hr template. induction template as [| c tl IH]; intros k Hc.
  - reflexivity.
  - assert (Htl : forall c', In c' (list_ascii_of_string tl) ->
                    is_018 c' = true \/ c' = "-"%char \/ c' = "4"%char).
    { intros c' Hin. apply Hc. simpl. auto. }
    specialize (Hc c (or_introl eq_refl)).
    destruct Hc as [H018 | [-> | ->]].
    + simpl replace_018. rewrite H018.
      unfold is_018 in H018.
      destruct (Ascii.eqb_spec c "8") as [-> | N8].
      * destruct (snowflake_digit_8 (random k) (Hr k)) as [d [-> Hd]].
        simpl. rewrite Hd. simpl. apply IH; auto.
      * destruct (Ascii.eqb_spec c "0") as [-> | N0];
          [| destruct (Ascii.eqb_spec c "1") as [-> | N1];
             [| discriminate H018]].
        -- destruct (snowflake_digit_01 "0" (random k) (or_introl eq_refl)
                       (Hr k)) as [d [-> Hd]].
           simpl. rewrite Hd. simpl. apply IH; auto.
        -- destruct (snowflake_digit_01 "1" (random k) (or_intror eq_refl)
                       (Hr k)) as [d [-> Hd]].
           simpl. rewrite Hd. simpl. apply IH; auto.
    + simpl. apply IH; auto.
    + simpl. apply IH; auto.
Qed.

Lemma snowflake_template_chars (c : ascii) :
  In c (list_ascii_of_string snowflake_template) ->
  is_018 c = true \/ c = "-"%char \/ c = "4"%char.
Proof.
  vm_compute. intros H.
  repeat (destruct H as [<- | H]; [auto |]). contradiction.
Qed.

(** For a draw in [0,1) the digit put in place of a placeholder is the
    one character [xor_digit] names. *)
Lemma snowflake_digit_xor (c : ascii) (r : Q) :
  is_018 c = true -> (0 <= r)%Q /\ (r < 1)%Q ->
  snowflake_digit c r = String (xor_digit c (scaled_random r)) "".
Proof.
  intros Hc Hr. apply scaled_random_range in Hr.
  unfold snowflake_digit, xor_digit. revert Hr. generalize (scaled_random r).
  intros n Hn. pattern n. apply nibble_cases; [exact Hn |].
  unfold is_018 in Hc.
  destruct (Ascii.eqb_spec c "0") as [-> | N0];
    [| destruct (Ascii.eqb_spec c "1") as [-> | N1];
       [| destruct (Ascii.eqb_spec c "8") as [-> | N8];
          [| discriminate Hc]]];
    cbv [map seq]; repeat (constructor; [vm_compute; reflexivity |]);
    constructor.
Qed.

(** The character at each position of the substituted string: a
    placeholder became the digit of the draw whose number is the count of
    placeholders before it, any other character stayed. *)
Lemma replace_018_get (random : nat -> Q) :
  (forall k, (0 <= random k)%Q /\ (random k < 1)%Q) ->
  forall (s : string) (k j : nat),
    String.get j (replace_018 random k s)
    = match String.get j s with
      | Some c =>
          Some (if is_018 c
                then xor_digit c
                       (scaled_random
                          (random (k + count_018 (substring 0 j s))%nat))
                else c)
      | None => None
      end.
Proof.
  intros Hr s. induction s as [| c tl IH]; intros k j.
  - destruct j; reflexivity.
  - cbn [replace_018]. destruct (is_018 c) eqn:Hc.
    + rewrite (snowflake_digit_xor c (random k) Hc (Hr k)).
      destruct j as [| j].
      * cbn. rewrite Hc, Nat.add_0_r. reflexivity.
      * cbn [append String.get substring count_018]. rewrite Hc, IH.
        rewrite Nat.add_succ_r. reflexivity.
    + destruct j as [| j].
      * cbn. rewrite Hc. reflexivity.
      * cbn [String.get substring count_018]. rewrite Hc, IH. reflexivity.
Qed.

Lemma xor_digit_values (n : Z) :
  0 <= n < 16 ->
  xor_digit "0" n = hex_digit n
  /\ xor_digit "1" n = hex_digit (if Z.even n then n + 1 else n - 1)
  /\ xor_digit "8" n = hex_digit (8 + n / 4).
Proof.
  intros Hn. pattern n. apply nibble_cases; [exact Hn |].
  cbv [map seq]; repeat (constructor; [vm_compute; auto |]); constructor.
Qed.

(** C10, as the code has it: whatever Math.random returns, the identifier
    has 40 characters, the 36 of the hyphenated pattern 8-4-4-4-12 and
    four more digits from the trailing [+ 1e3]; every placeholder 0, 1 or
    8 of the template became one digit 0-9a-f (8 became one of 8, 9, a,
    b), and the hyphens and the 4 stayed.  The digit at a placeholder is
    the placeholder's value XOR-ed with the scaled random value shifted
    right by a quarter of the placeholder, the draws being used in the
    order of the placeholders: for a scaled value n a 0 becomes n, a 1
    becomes n with its last bit flipped and an 8 becomes 8 + n/4. *)
Theorem snowflakeId_shape (random : nat -> Q) :
  (forall k, (0 <= random k)%Q /\ (random k < 1)%Q) ->
  snowflake_template = "10000000-1000-4000-8000-1000000000001000"
  /\ String.length (snowflakeId random) = 40%nat
  /\ matches_layout "xxxxxxxx-xxxx-4xxx-yxxx-xxxxxxxxxxxxxxxx"
       (snowflakeId random) = true
  /\ (forall j,
        String.get j (snowflakeId random)
        = match String.get j snowflake_template with
          | Some c =>
              Some (if is_018 c
                    then xor_digit c
                           (scaled_random
                              (random
                                 (count_018
                                    (substring 0 j snowflake_template))))
                    else c)
          | None => None
          end)
  /\ (forall n, 0 <= n < 16 ->
        xor_digit "0" n = hex_digit n
        /\ xor_digit "1" n = hex_digit (if Z.even n then n + 1 else n - 1)
        /\ xor_digit "8" n = hex_digit (8 + n / 4)).
Proof.
  intros Hr.
  assert (L : matches_layout (layout_of snowflake_template)
                (snowflakeId random) = true).
  { apply replace_018_layout; [exact Hr | exact snowflake_template_chars]. }
  split; [reflexivity |]. split; [| split; [exact L | split]].
  - apply matches_layout_length in L. rewrite L. reflexivity.
  - intros j. unfold snowflakeId.
    exact (replace_018_get random Hr snowflake_template 0 j).
  - exact xor_digit_values.
Qed.

Lemma snowflakeId_shape_witness :
  (forall k, (0 <= Z.of_nat (k mod 16) # 16)%Q
             /\ (Z.of_nat (k mod 16) # 16 < 1)%Q)
  /\ snowflake_template = "10000000-1000-4000-8000-1000000000001000"
  /\ String.length
       (snowflakeId (fun k => Z.of_nat (k mod 16) # 16)) = 40%nat
  /\ matches_layout "xxxxxxxx-xxxx-4xxx-yxxx-xxxxxxxxxxxxxxxx"
       (snowflakeId (fun k => Z.of_nat (k mod 16) # 16)) = true
  /\ (forall j,
        String.get j (snowflakeId (fun k => Z.of_nat (k mod 16) # 16))
        = match String.get j snowflake_template with
          | Some c =>
              Some (if is_018 c
                    then xor_digit c
                           (scaled_random
                              (Z.of_nat
                                 (count_018 (substring 0 j snowflake_template)
                                  mod 16) # 16))
                    else c)
          | None => None
          end)
  /\ (forall n, 0 <= n < 16 ->
        xor_digit "0" n = hex_digit n
        /\ xor_digit "1" n = hex_digit (if Z.even n then n + 1 else n - 1)
        /\ xor_digit "8" n = hex_digit (8 + n / 4)).
Proof.
  assert (R : forall k, (0 <= Z.of_nat (k mod 16) # 16)%Q
                        /\ (Z.of_nat (k mod 16) # 16 < 1)%Q).
  { intros k. unfold Qle, Qlt. cbn [Qnum Qden].
    pose proof (Nat.mod_upper_bound k 16). lia. }
  split; [exact R |].
  exact (snowflakeId_shape (fun k => Z.of_nat (k mod 16) # 16) R).
Defined.

(** C10 with 36 characters does not hold: with Math.random returning 0
    throughout, the identifier is the template itself, 40 characters
    long. *)
Lemma snowflakeId_not_36_chars :
  snowflakeId (fun _ => 0%Q) = "10000000-1000-4000-8000-1000000000001000"
  /\ String.length (snowflakeId (fun _ => 0%Q)) <> 36%nat.
Proof.
  split; vm_compute; [reflexivity | discriminate].
Qed.

(** ** getId *)

(** C8, as the code has it: each run of the function getId returns hands
    exactly one call to the transport, a GET of the fixed sync endpoint
    with the identifier as its token and credentials disabled.  When the
    exchange succeeds, the indicator becomes 1 for status 200, 2 for 204
    and 0 for any other status, and the completion callback receives
    [{id}]; when it fails, no handler is registered: the indicator keeps
    its value and the completion callback is not run. *)
Theorem getId_sync (random : nat -> Q) (config : SubmoduleConfig)
  (o : Outcome) (w : World) :
  let novatiqId := snowflakeId random in
  let w' := callback (getId random config) deliver o w in
  sent w' = (sent w ++ [sync_call novatiqId])%list
  /\ match o with
     | Success _ responseObj =>
         nlocvalue w' = status_indicator (status responseObj)
         /\ received w' = (received w ++ [{| id := novatiqId |}])%list
     | Failure =>
         nlocvalue w' = nlocvalue w /\ received w' = received w
     end.
Proof.
  destruct o as [response [syncrc] |]; simpl.
  - unfold status_indicator.
    destruct (syncrc =? 200); [| destruct (syncrc =? 204)]; auto.
  - auto.
Qed.

(** C8 does not hold on transport failure: when the sync call fails the
    completion callback never receives the identifier. *)
Lemma getId_failure_drops_callback :
  ~ In {| id := snowflakeId (fun _ => 0%Q) |}
       (received (callback (getId (fun _ => 0%Q) {| config_params := None |})
                    deliver Failure initial_world)).
Proof.
  vm_compute. intros H. exact H.
Qed.

End NovatiqFacts.

(** * Properties of the string builtins *)

Module JsStringFacts.
Import JsString.

Lemma upper_char_U (c : ascii) :
  (upper_char c =? "U")%char = ((c =? "U") || (c =? "u"))%char.
Proof.
  destruct c as [[] [] [] [] [] [] [] []]; reflexivity.
Qed.

Lemma upper_char_S (c : ascii) :
  (upper_char c =? "S")%char = ((c =? "S") || (c =? "s"))%char.
Proof.
  destruct c as [[] [] [] [] [] [] [] []]; reflexivity.
Qed.

Lemma upper_char_D (c : ascii) :
  (upper_char c =? "D")%char = ((c =? "D") || (c =? "d"))%char.
Proof.
  destruct c as [[] [] [] [] [] [] [] []]; reflexivity.
Qed.

(** Whatever follows, the output of the global replacement has no line
    feed: both for a string and for the string behind one more
    character, which is what the look-ahead after a carriage return
    needs. *)
Lemma replace_crlf_global_no_LF_step (s : string) :
  contains_char LF (replace_crlf_global s) = false
  /\ forall c, contains_char LF (replace_crlf_global (String c s)) = false.
Proof.
  induction s as [| d s [IH1 IH2]].
  - split; [reflexivity |]. intros c. simpl.
    destruct (Ascii.eqb_spec c LF) as [-> | N]; [reflexivity |].
    destruct (c =? CR)%char; simpl;
      (destruct (Ascii.eqb_spec c LF); [contradiction | reflexivity]).
  - split; [apply IH2 |]. intros c.
    change (replace_crlf_global (String c (String d s))) with
      (if (c =? LF)%char then replace_crlf_global (String d s)
       else if (c =? CR)%char then
              if (d =? LF)%char then replace_crlf_global s
              else String c (replace_crlf_global (String d s))
            else String c (replace_crlf_global (String d s))).
    destruct (Ascii.eqb_spec c LF) as [-> | N]; [apply IH2 |].
    assert (K : contains_char LF (String c (replace_crlf_global (String d s)))
                = false).
    { change (((c =? LF)%char
               || contains_char LF (replace_crlf_global (String d s)))
              = false).
      rewrite (IH2 d). destruct (Ascii.eqb_spec c LF);
        [contradiction | reflexivity]. }
    destruct (c =? CR)%char; [destruct (d =? LF)%char |]; auto.
Qed.

Lemma replace_crlf_global_no_LF (s : string) :
  contains_char LF (replace_crlf_global s) = false.
Proof.
  apply replace_crlf_global_no_LF_step.
Qed.

(** A string without line feeds is left as it is. *)
Lemma replace_crlf_global_id_step (s : string) :
  (contains_char LF s = false -> replace_crlf_global s = s)
  /\ forall c, contains_char LF (String c s) = false ->
               replace_crlf_global (String c s) = String c s.
Proof.
  induction s as [| d s [IH1 IH2]].
  - split; [reflexivity |]. intros c H. simpl in *.
    rewrite orb_false_r in H. rewrite H.
    destruct (c =? CR)%char; reflexivity.
  - split; [apply IH2 |]. intros c H.
    change (contains_char LF (String c (String d s)))
      with ((c =? LF)%char || contains_char LF (String d s)) in H.
    apply orb_false_iff in H. destruct H as [Hc Hd].
    change (replace_crlf_global (String c (String d s))) with
      (if (c =? LF)%char then replace_crlf_global (String d s)
       else if (c =? CR)%char then
              if (d =? LF)%char then replace_crlf_global s
              else String c (replace_crlf_global (String d s))
            else String c (replace_crlf_global (String d s))).
    rewrite Hc, (IH2 d Hd).
    assert (Hd' : (d =? LF)%char = false).
    { simpl in Hd. apply orb_false_iff in Hd. apply Hd. }
    rewrite Hd'. destruct (c =? CR)%char; reflexivity.
Qed.

(** A line without line feeds that a line feed ends loses that line feed
    and the carriage return before it, if there is one; what follows is
    treated in the same way. *)
Lemma replace_crlf_global_line (a b : string) :
  contains_char LF a = false ->
  replace_crlf_global (a ++ String LF b) = chop_cr a ++ replace_crlf_global b.
Proof.
  induction a as [| c a IH]; intros H.
  - reflexivity.
  - change (contains_char LF (String c a))
      with ((c =? LF)%char || contains_char LF a) in H.
    apply orb_false_iff in H. destruct H as [Hc Ha].
    specialize (IH Ha).
    destruct a as [| d a].
    + cbn. rewrite Hc. destruct (c =? CR)%char; reflexivity.
    + assert (Hd : (d =? LF)%char = false).
      { simpl in Ha. apply orb_false_iff in Ha. apply Ha. }
      change (replace_crlf_global (String c (String d a) ++ String LF b)) with
        (if (c =? LF)%char
         then replace_crlf_global (String d a ++ String LF b)
         else if (c =? CR)%char then
                if (d =? LF)%char
                then replace_crlf_global (a ++ String LF b)
                else String c (replace_crlf_global (String d a ++ String LF b))
              else String c (replace_crlf_global (String d a ++ String LF b))).
      rewrite Hc, Hd, IH. destruct (c =? CR)%char; reflexivity.
Qed.

End JsStringFacts.

(** * Properties of adgenerationBidAdapter *)

Module AdgenerationFacts.
Import JsString Adgeneration JsStringFacts.

(** ** The result monad *)

Lemma bind_Ok {A B : Type} (r : result A) (k : A -> result B) (b : B) :
  bind r k = Ok b -> exists a, r = Ok a /\ k a = Ok b.
Proof.
  destruct r as [a | e]; simpl; intros H; [eauto | discriminate].
Qed.

Lemma mapM_Ok {A B : Type} (f : A -> result B) (l : list A) (bs : list B) :
  mapM f l = Ok bs -> Forall2 (fun a b => f a = Ok b) l bs.
Proof.
  revert bs. induction l as [| a l IH]; simpl; intros bs H.
  - injection H as <-. constructor.
  - apply bind_Ok in H. destruct H as [b [Hb H]].
    apply bind_Ok in H. destruct H as [bs' [Hbs H]].
    injection H as <-. constructor; auto.
Qed.

(** ** getCurrencyType *)

Lemma toUpperCase_usd (s : string) :
  (toUpperCase s =? "USD")%string = is_usd_any_case s.
Proof.
  destruct s as [| a [| b [| c [| d s]]]]; simpl;
    rewrite ?upper_char_U, ?upper_char_S, ?upper_char_D;
    rewrite ?andb_false_r, ?andb_true_r; try reflexivity.
  - destruct ((a =? "U") || (a =? "u"))%char; reflexivity.
  - destruct ((a =? "U") || (a =? "u"))%char; [| reflexivity].
    destruct ((b =? "S") || (b =? "s"))%char; reflexivity.
  - destruct ((a =? "U") || (a =? "u"))%char; [| reflexivity].
    destruct ((b =? "S") || (b =? "s"))%char; [| reflexivity].
    destruct ((c =? "D") || (c =? "d"))%char; reflexivity.
  - destruct ((a =? "U") || (a =? "u"))%char; [| reflexivity].
    destruct ((b =? "S") || (b =? "s"))%char; [| reflexivity].
    destruct ((c =? "D") || (c =? "d"))%char; reflexivity.
Qed.

(** C5: getCurrencyType answers "USD" exactly when the
    currency.adServerCurrency option is set and is "USD" in some mix of
    upper and lower case, and "JPY" in every other case, the unset
    option included. *)
Theorem getCurrencyType_usd_or_jpy (cfg : Config) :
  getCurrencyType cfg = if configured_usd cfg then "USD" else "JPY".
Proof.
  unfold getCurrencyType, configured_usd.
  destruct (adServerCurrency cfg) as [s |]; [| reflexivity].
  rewrite toUpperCase_usd. unfold truthy_str.
  destruct s as [| a s]; reflexivity.
Qed.

(** ** createAd *)

Lemma append_assoc (a b c : string) : (a ++ b) ++ c = a ++ (b ++ c).
Proof.
  induction a as [| x a IH]; simpl; [reflexivity | now rewrite IH].
Qed.

Section Markup.
Context {host : Host}.

(** The markup createAd starts from, kind by kind. *)
Lemma createAd_markup_by_kind (adResult : AdResult)
  (l : option LocationParams) (bp : Params) (requestId : string) :
  createAd_markup adResult l (Some bp) requestId
  = Ok (creative_markup escapeUnsafeChars adResult l bp requestId).
Proof.
  unfold createAd_markup, creative_markup, creative_kind.
  destruct (res_vastxml adResult) as [[| c v] |]; try reflexivity.
  change (0 <? String.length (String c v))%nat with true. cbv match.
  assert (Apv :
    Ok (A := option string)
       (Some ("<body><div id=" ++ dq ++ "apvad-" ++ requestId ++ dq
              ++ "></div>" ++ createAPVTag
              ++ insertVASTMethodForAPV requestId (String c v) ++ "</body>"))
    = Ok (Some ("<body><div id=" ++ dq ++ "apvad-" ++ requestId ++ dq
                ++ "></div><script type=" ++ dq ++ "text/javascript" ++ dq
                ++ " id=" ++ dq ++ "apv" ++ dq ++ " src=" ++ dq
                ++ "https://cdn.apvdr.com/js/VideoAd.min.js" ++ dq
                ++ "></script><script type=" ++ dq ++ "text/javascript"
                ++ dq ++ ">(function(){ new APV.VideoAd("
                ++ escapeUnsafeChars
                     ("{" ++ dq ++ "s" ++ dq ++ ":" ++ dq
                      ++ json_escape requestId ++ dq ++ "}")
                ++ ").load('" ++ replace_crlf_global (String c v)
                ++ "'); })();</script></body>"))).
  { unfold createAPVTag, insertVASTMethodForAPV, JSON_stringify_string.
    rewrite !append_assoc. reflexivity. }
  unfold isUpperBillboard, placement_ad_type.
  destruct l as [[[[[a |]] |]] |]; cbn [lp_option ad_type];
    unfold truthy_str, to_string; try exact Apv.
  destruct a as [| x a]; [exact Apv |].
  change (negb (String x a =? "")%string) with true. cbv match.
  destruct (String x a =? "upper_billboard")%string; [| exact Apv].
  unfold bind, prop_of, createADGBrowserMTag, insertVASTMethodForADGBrowserM.
  rewrite !append_assoc. do 2 f_equal.
  unfold str_or, truthy_str.
  destruct (param_marginTop bp) as [[| y m] |]; reflexivity.
Qed.

End Markup.

(** C6: the tail of createAd departs from the specification.  A
    document whose body tag is not at the start keeps part of the
    closing tag: substr is given the index of the last closing tag as a
    length.  A result without a beacon gets the text "undefined" put
    before the closing tag.  The examples of the specification, a body
    at the start and no body at all, come out as intended, and markup
    with only an opening body tag is returned as it is. *)
Theorem createAd_finish_divergence :
  createAd_finish (Some "<html><body>X</body></html>") (Some "B")
  = Ok "XB</body"
  /\ createAd_finish (Some "<body>X</body>") None = Ok "Xundefined"
  /\ createAd_finish (Some "<body>X</body>") (Some "B") = Ok "XB"
  /\ createAd_finish (Some "X") (Some "B") = Ok "X"
  /\ createAd_finish (Some "<body>X") (Some "B") = Ok "<body>X".
Proof.
  repeat split; vm_compute; reflexivity.
Qed.

(** ** buildRequests *)

Section Requests.
Context {host : Host}.

Lemma converter_imp_params (bid : BidRequest) :
  exists e, imp_ext (converter_imp bid) = Some e
            /\ ext_params e = Some (params bid).
Proof.
  unfold converter_imp, deepSetValue_ext_params. simpl. eauto.
Qed.

Lemma endpoint_for_url (p : Params) :
  (if truthy_bool (param_debug p)
   then (if truthy_str (param_debug_url p)
         then to_string (param_debug_url p) else DEBUG_URL)
   else URL) = endpoint_for p.
Proof.
  unfold endpoint_for, truthy_bool, truthy_str, to_string.
  destruct (param_debug p) as [[|] |]; try reflexivity.
  destruct (param_debug_url p) as [u |]; [| reflexivity].
  destruct (u =? "")%string; reflexivity.
Qed.

Lemma buildRequest_of_imp_Ok (cfg : Config) (other : list (string * json))
  (i : Imp) (req : ServerRequest) :
  buildRequest_of_imp cfg other i = Ok req ->
  exists e p, imp_ext i = Some e /\ ext_params e = Some p
              /\ built_from i p req.
Proof.
  unfold buildRequest_of_imp. intros H.
  destruct (imp_ext i) as [e |]; [| discriminate H].
  destruct (ext_params e) as [p |] eqn:Ep; [| discriminate H].
  simpl in H. injection H as <-. exists e, p.
  rewrite endpoint_for_url. unfold built_from. simpl. repeat split; auto.
Qed.

Lemma buildRequest_of_converter_imp (cfg : Config)
  (other : list (string * json)) (bid : BidRequest) :
  exists req, buildRequest_of_imp cfg other (converter_imp bid) = Ok req
              /\ built_from (converter_imp bid) (params bid) req.
Proof.
  unfold buildRequest_of_imp, converter_imp, deepSetValue_ext_params.
  simpl. eexists. split; [reflexivity |].
  unfold built_from. simpl. rewrite endpoint_for_url. repeat split; auto.
Qed.

Lemma mapM_converter_imps (cfg : Config) (other : list (string * json))
  (bids : list BidRequest) :
  exists reqs,
    mapM (buildRequest_of_imp cfg other) (map converter_imp bids) = Ok reqs
    /\ Forall2 (fun bid req => built_from (converter_imp bid) (params bid) req)
         bids reqs.
Proof.
  induction bids as [| bid bids [reqs [E F]]]; cbn [map mapM].
  - exists []. split; [reflexivity | constructor].
  - destruct (buildRequest_of_converter_imp cfg other bid) as [req [Er Br]].
    rewrite Er. cbn [bind]. rewrite E. cbn [bind].
    exists (req :: reqs). split; [reflexivity | constructor; assumption].
Qed.

(** C2: when the library's request builder keeps the impressions it is
    given, a batch of N bid requests yields exactly N server requests,
    in order.  The request of a bid is a POST with withCredentials and
    crossOrigin set, its payload's pb_ortb2.imp holds the one impression
    built for that bid, whose ext.params are the bid's parameters, and
    its URL is the production endpoint unless the debug parameter is
    set, in which case it is debug_url when that is supplied and the
    debug endpoint otherwise. *)
Theorem buildRequests_one_request_per_bid (cfg : Config)
  (bids : list BidRequest) (bidderRequest : BidderRequest) :
  (forall imps br, imp (buildRequest imps br) = imps) ->
  exists reqs,
    buildRequests cfg bids bidderRequest = Ok reqs
    /\ List.length reqs = List.length bids
    /\ Forall2
         (fun bid req =>
            method req = "POST"
            /\ withCredentials (options req) = true
            /\ crossOrigin (options req) = true
            /\ imp (pb_ortb2 (data req)) = [converter_imp bid]
            /\ (exists e, imp_ext (converter_imp bid) = Some e
                          /\ ext_params e = Some (params bid))
            /\ url req = match param_debug (params bid) with
                         | Some true =>
                             match param_debug_url (params bid) with
                             | Some EmptyString => DEBUG_URL
                             | Some u => u
                             | None => DEBUG_URL
                             end
                         | _ => URL
                         end)
         bids reqs.
Proof.
  intros Hlib. unfold buildRequests, toORTB, converter_request.
  rewrite Hlib.
  destruct (mapM_converter_imps cfg
              (otherParams (buildRequest (map converter_imp bids)
                              bidderRequest)) bids) as [reqs [E F]].
  exists reqs. split; [exact E |]. split.
  - symmetry. eapply Forall2_length. exact F.
  - eapply Forall2_impl; [| exact F].
    intros bid req (Hm & Hw & Hc & Hi & Hu). cbv beta.
    repeat split; try assumption.
    + apply converter_imp_params.
    + rewrite Hu. unfold endpoint_for.
      destruct (param_debug (params bid)) as [[|] |]; try reflexivity.
      destruct (param_debug_url (params bid)) as [[| c u] |]; reflexivity.
Qed.

(** Every request buildRequests returns holds exactly one impression,
    and that impression has adapter parameters. *)
Lemma buildRequests_In (cfg : Config) (bids : list BidRequest)
  (bidderRequest : BidderRequest) (reqs : list ServerRequest)
  (req : ServerRequest) :
  buildRequests cfg bids bidderRequest = Ok reqs -> In req reqs ->
  exists i e p, imp (pb_ortb2 (data req)) = [i] /\ imp_ext i = Some e
                /\ ext_params e = Some p.
Proof.
  unfold buildRequests. intros H Hin. apply mapM_Ok in H.
  induction H as [| i r imps rs Hr _ IH]; [contradiction |].
  destruct Hin as [-> | Hin]; [| auto].
  apply buildRequest_of_imp_Ok in Hr.
  destruct Hr as [e [p [He [Hp B]]]]. exists i, e, p.
  split; [apply B | auto].
Qed.

End Requests.

(** ** interpretResponse *)

Section Responses.
Context {host : Host}.

Lemma native_asset_is_ok (n : Native) (a : Asset) :
  is_ok (native_asset n a) = asset_ok a.
Proof.
  unfold native_asset, asset_ok.
  destruct (is_id a 1); [destruct (asset_title a); reflexivity |].
  destruct (is_id a 2); [destruct (asset_img a); reflexivity |].
  destruct (is_id a 3); [destruct (asset_img a); reflexivity |].
  destruct (is_id a 4); [destruct (asset_data a); reflexivity |].
  destruct (is_id a 5); [destruct (asset_data a); reflexivity |].
  destruct (is_id a 6); [destruct (asset_data a); reflexivity |].
  destruct (is_id a 502); [destruct (asset_data a); reflexivity |].
  reflexivity.
Qed.

Lemma foldM_native_asset_is_ok (assets : list Asset) (n : Native) :
  is_ok (foldM native_asset assets n) = forallb asset_ok assets.
Proof.
  revert n. induction assets as [| a assets IH]; intros n; cbn [foldM forallb].
  - reflexivity.
  - rewrite <- (native_asset_is_ok n a).
    destruct (native_asset n a) as [n' | e]; cbn [bind is_ok andb];
      [apply IH | reflexivity].
Qed.

Lemma createNativeAd_is_ok (na : NativeAd) (beaconUrl : option string)
  (a : Asset) (assets : list Asset) :
  na_assets na = Some (a :: assets) ->
  is_ok (createNativeAd (Some na) beaconUrl)
  = forallb asset_ok (a :: assets)
    && match na_link na with Some _ => true | None => false end.
Proof.
  intros Ha. unfold createNativeAd. rewrite Ha. cbn [prop_of bind].
  change (0 <? List.length (a :: assets))%nat with true. cbv match.
  rewrite <- (foldM_native_asset_is_ok (a :: assets) empty_native).
  destruct (foldM native_asset (a :: assets) empty_native) as [n | e];
    cbn [bind is_ok andb]; [| reflexivity].
  destruct (na_link na); reflexivity.
Qed.

Lemma createAd_finish_is_ok (ad beacon : option string) :
  is_ok (createAd_finish ad beacon)
  = match ad with Some _ => true | None => false end.
Proof.
  unfold createAd_finish, appendChildToBody.
  destruct ad as [a |]; cbn [prop_of bind]; [| reflexivity].
  destruct (removeWrapper _) as [inner |]; [| reflexivity].
  destruct (inner =? "")%string; reflexivity.
Qed.

Lemma createAd_is_ok (r : AdResult) (l : option LocationParams) (p : Params)
  (requestId : string) :
  is_ok (createAd r l (Some p) requestId) = banner_ok r.
Proof.
  unfold createAd, createAd_markup, banner_ok.
  destruct (res_vastxml r) as [[| c v] |].
  - change (0 <? String.length "")%nat with false. cbv match. cbn [bind].
    rewrite createAd_finish_is_ok. destruct (res_ad r); reflexivity.
  - change (0 <? String.length (String c v))%nat with true. cbv match.
    destruct (isUpperBillboard l); cbn [prop_of bind];
      rewrite createAd_finish_is_ok; reflexivity.
  - cbn [bind]. rewrite createAd_finish_is_ok.
    destruct (res_ad r); reflexivity.
Qed.

(** When the request is one buildRequests returns, interpretResponse
    throws exactly on the bodies that miss a property it reads. *)
Lemma interpretResponse_is_ok (cfg : Config) (resp : ServerResponse)
  (req : ServerRequest) :
  request_ok req = true ->
  is_ok (interpretResponse cfg resp req) = response_ok (response_body resp).
Proof.
  unfold request_ok, interpretResponse, response_ok. intros Hreq.
  destruct (body_results (response_body resp)) as [[| r rs] |];
    try reflexivity.
  destruct (imp (pb_ortb2 (data req))) as [| i imps]; [discriminate |].
  destruct (imp_ext i) as [e |] eqn:Ee; [| discriminate].
  destruct (ext_params e) as [p |] eqn:Ep; [| discriminate].
  cbn [nth_error prop_of bind]. unfold isNative.
  destruct (body_native_ad (response_body resp)) as [na |] eqn:En;
    cbn [bind].
  - destruct (na_assets na) as [[| a assets] |] eqn:Ea; cbn [prop_of bind].
    + change (0 <? List.length (@nil Asset))%nat with false. cbv match.
      rewrite Ee. cbn [prop_of bind]. rewrite Ep.
      rewrite <- (createAd_is_ok r (body_location_params (response_body resp))
                    p (imp_id i)).
      destruct (createAd _ _ _ _); reflexivity.
    + change (0 <? List.length (a :: assets))%nat with true. cbv match.
      cbn [prop_of bind].
      rewrite <- (createNativeAd_is_ok na
                    (body_beaconurl (response_body resp)) a assets Ea).
      destruct (createNativeAd _ _); reflexivity.
    + reflexivity.
  - rewrite Ee. cbn [prop_of bind]. rewrite Ep.
    rewrite <- (createAd_is_ok r (body_location_params (response_body resp))
                  p (imp_id i)).
    destruct (createAd _ _ _ _); reflexivity.
Qed.

(** What a returned answer looks like when the body has results. *)
Lemma interpretResponse_Ok (cfg : Config) (resp : ServerResponse)
  (req : ServerRequest) (r : AdResult) (rs : list AdResult)
  (out : list Bid) :
  body_results (response_body resp) = Some (r :: rs) ->
  interpretResponse cfg resp req = Ok out ->
  exists i b,
    nth_error (imp (pb_ortb2 (data req))) 0 = Some i
    /\ out = [b]
    /\ requestId b = imp_id i
    /\ cpm b = num_or (res_cpm r) 0
    /\ width b = num_or (res_w r) 1
    /\ height b = num_or (res_h r) 1
    /\ ttl b = num_or (res_ttl r) 10
    /\ creativeId b = r
    /\ meta b = if has_adomain (response_body resp)
                then Some {| advertiserDomains :=
                               list_or_empty
                                 (body_adomain (response_body resp)) |}
                else None.
Proof.
  unfold interpretResponse. intros Hres H. rewrite Hres in H.
  destruct (nth_error (imp (pb_ortb2 (data req))) 0) as [i |];
    [| discriminate H].
  cbn [prop_of bind] in H.
  destruct (isNative (response_body resp)) as [[|] | e];
    cbn [bind] in H; [| | discriminate H].
  - destruct (createNativeAd _ _) as [n | e]; [| discriminate H].
    cbn [bind] in H. injection H as <-.
    exists i. eexists. split; [reflexivity |]. split; [reflexivity |].
    destruct (has_adomain (response_body resp)); cbn; repeat split.
  - destruct (imp_ext i) as [ext |]; [| discriminate H].
    cbn [prop_of bind] in H.
    destruct (createAd _ _ _ _) as [a | e]; [| discriminate H].
    cbn [bind] in H. injection H as <-.
    exists i. eexists. split; [reflexivity |]. split; [reflexivity |].
    destruct (has_adomain (response_body resp)); cbn; repeat split.
Qed.

Lemma interpretResponse_first_result (cfg : Config) (resp : ServerResponse)
  (req : ServerRequest) (r : AdResult) (rs : list AdResult) :
  body_results (response_body resp) = Some (r :: rs) ->
  interpretResponse cfg resp req
  = interpretResponse cfg (with_results resp (Some [r])) req.
Proof.
  unfold interpretResponse, with_results. intros Hres.
  rewrite Hres. reflexivity.
Qed.

Lemma num_or_cases (o : option Q) (d : Q) :
  num_or o d = match o with
               | Some c => if Qeq_bool c 0 then d else c
               | None => d
               end.
Proof.
  unfold num_or, truthy_num. destruct o as [c |]; [| reflexivity].
  destruct (Qeq_bool c 0); reflexivity.
Qed.

Lemma request_ok_built (cfg : Config) (bids : list BidRequest)
  (bidderRequest : BidderRequest) (reqs : list ServerRequest)
  (req : ServerRequest) :
  buildRequests cfg bids bidderRequest = Ok reqs -> In req reqs ->
  request_ok req = true.
Proof.
  intros H Hin.
  destruct (buildRequests_In cfg bids bidderRequest reqs req H Hin)
    as [i [e [p [Hi [He Hp]]]]].
  unfold request_ok. rewrite Hi, He, Hp. reflexivity.
Qed.

(** C1: a request buildRequests returns embeds exactly one impression,
    and whatever response comes back for it, a bid interpretResponse
    returns carries that impression's id as its requestId: the id is
    read from the request's payload, the response has no part in it.
    On bodies with results interpretResponse returns a bid unless the
    body misses a property it reads. *)
Theorem requestId_round_trip (cfg cfg' : Config) (bids : list BidRequest)
  (bidderRequest : BidderRequest) (reqs : list ServerRequest)
  (req : ServerRequest) (resp : ServerResponse) (r : AdResult)
  (rs : list AdResult) :
  buildRequests cfg bids bidderRequest = Ok reqs ->
  In req reqs ->
  body_results (response_body resp) = Some (r :: rs) ->
  exists i,
    imp (pb_ortb2 (data req)) = [i]
    /\ match interpretResponse cfg' resp req with
       | Ok out => exists b, out = [b] /\ requestId b = imp_id i
       | Throw _ => response_ok (response_body resp) = false
       end.
Proof.
  intros Hb Hin Hres.
  destruct (buildRequests_In cfg bids bidderRequest reqs req Hb Hin)
    as [i [e [p [Hi [He Hp]]]]].
  exists i. split; [exact Hi |].
  pose proof (interpretResponse_is_ok cfg' resp req
                (request_ok_built cfg bids bidderRequest reqs req Hb Hin))
    as Hok.
  destruct (interpretResponse cfg' resp req) as [out | err] eqn:E.
  - destruct (interpretResponse_Ok cfg' resp req r rs out Hres E)
      as [i' [b [Hn [-> [Hid _]]]]].
    rewrite Hi in Hn. injection Hn as <-. eauto.
  - symmetry. exact Hok.
Qed.

(** C3, as the code has it: a body without results, or with an empty
    results array, gives the empty list.  Otherwise only the first
    result counts, and whatever interpretResponse returns is exactly one
    bid: its creativeId is the first result, its cpm is the result's or
    0, its width and height the result's or 1, its ttl the result's or
    10, and it has a meta with advertiserDomains exactly when the body's
    adomain is a non-empty array.  For a request that carries an
    impression with parameters that bid is returned exactly when the
    body misses no property the code reads; on any other body with
    results, a first result with neither [ad] nor a non-empty vastxml
    among them, interpretResponse throws a TypeError. *)
Theorem interpretResponse_one_bid (cfg : Config) (resp : ServerResponse)
  (req : ServerRequest) :
  match body_results (response_body resp) with
  | None => interpretResponse cfg resp req = Ok []
  | Some [] => interpretResponse cfg resp req = Ok []
  | Some (r :: _) =>
      interpretResponse cfg resp req
      = interpretResponse cfg (with_results resp (Some [r])) req
      /\ (forall out,
            interpretResponse cfg resp req = Ok out ->
            exists b, out = [b] /\ first_result_bid (response_body resp) r b)
      /\ (request_ok req = true ->
          if response_ok (response_body resp)
          then exists b,
                 interpretResponse cfg resp req = Ok [b]
                 /\ first_result_bid (response_body resp) r b
          else exists msg,
                 interpretResponse cfg resp req = Throw (TypeError msg))
  end.
Proof.
  destruct (body_results (response_body resp)) as [[| r rs] |] eqn:Hres;
    try (unfold interpretResponse; rewrite Hres; reflexivity).
  assert (K : forall out,
            interpretResponse cfg resp req = Ok out ->
            exists b, out = [b] /\ first_result_bid (response_body resp) r b).
  { intros out E.
    destruct (interpretResponse_Ok cfg resp req r rs out Hres E)
      as [i [b [_ [-> [_ [Hc [Hw [Hh [Ht [Hcr Hm]]]]]]]]]].
    exists b. split; [reflexivity |].
    unfold first_result_bid. rewrite <- !num_or_cases.
    repeat split; try assumption.
    rewrite Hm. unfold has_adomain, list_or_empty.
    destruct (body_adomain (response_body resp)) as [[| d ds] |];
      reflexivity. }
  split; [exact (interpretResponse_first_result cfg resp req r rs Hres) |].
  split; [exact K |].
  intros Hreq.
  rewrite <- (interpretResponse_is_ok cfg resp req Hreq).
  destruct (interpretResponse cfg resp req) as [out | [msg]] eqn:E;
    cbn [is_ok].
  - destruct (K out eq_refl) as [b [-> Hb]]. exists b. auto.
  - exists msg. reflexivity.
Qed.


(** C7, as the code has it: in the banner branch, the one taken when
    isNative answers false, interpretResponse returns one bid without
    native and mediaType whose [ad] is what the beacon and wrapper steps
    of createAd make of the creative's markup, and it throws what those
    steps throw.  The markup is the server's [ad] without (or with an
    empty) vastxml; with a vastxml on an upper_billboard placement it is
    the adg-browser-m script followed by the ADGBrowserM.init call
    carrying the marginTop parameter, "0" when the parameter is absent or
    empty; with a vastxml elsewhere it is the div whose id is
    apvad-<requestId>, the APV script and the APV.VideoAd call.  In both
    players the vastxml is embedded after [replace(/\r?\n/g, '')]: each
    line loses the line feed that ends it and the carriage return right
    before that line feed, a text without line feeds, carriage returns
    or not, is embedded as it is, and no line feed is left. *)
Theorem banner_ad_kinds (cfg : Config) (resp : ServerResponse)
  (req : ServerRequest) (i : Imp) (e : ImpExt) (bp : Params) (r : AdResult)
  (rs : list AdResult) :
  nth_error (imp (pb_ortb2 (data req))) 0 = Some i ->
  imp_ext i = Some e ->
  ext_params e = Some bp ->
  body_results (response_body resp) = Some (r :: rs) ->
  isNative (response_body resp) = Ok false ->
  match interpretResponse cfg resp req with
  | Ok out =>
      exists b a,
        out = [b] /\ ad b = Some a /\ native b = None /\ mediaType b = None
        /\ createAd_finish
             (creative_markup escapeUnsafeChars r
                (body_location_params (response_body resp)) bp (imp_id i))
             (res_beacon r)
           = Ok a
  | Throw err =>
      createAd_finish
        (creative_markup escapeUnsafeChars r
           (body_location_params (response_body resp)) bp (imp_id i))
        (res_beacon r)
      = Throw err
  end
  /\ (forall line rest,
        contains_char LF line = false ->
        replace_crlf_global (line ++ String LF rest)
        = chop_cr line ++ replace_crlf_global rest)
  /\ (forall line,
        contains_char LF line = false -> replace_crlf_global line = line)
  /\ (forall v, contains_char LF (replace_crlf_global v) = false).
Proof.
  intros Hi He Hp Hres Hnat.
  split; [| split; [exact replace_crlf_global_line
                   | split; [intros line; apply replace_crlf_global_id_step
                            | exact replace_crlf_global_no_LF]]].
  unfold interpretResponse. rewrite Hres, Hi. cbn [prop_of bind].
  rewrite Hnat. cbn [bind]. rewrite He. cbn [prop_of bind]. rewrite Hp.
  unfold createAd. rewrite createAd_markup_by_kind. cbn [bind].
  destruct (createAd_finish _ _) as [a | err]; cbn [bind]; [| reflexivity].
  eexists. exists a. split; [reflexivity |].
  destruct (has_adomain (response_body resp)); repeat split.
Qed.

End Responses.

(** ** The adapter on the sample batch *)

Lemma buildRequests_one_request_per_bid_witness :
  (forall imps br, imp (@buildRequest sample_host imps br) = imps)
  /\ exists reqs,
       @buildRequests sample_host {| adServerCurrency := None |} sample_bids []
       = Ok reqs
       /\ List.length reqs = List.length sample_bids
       /\ Forall2
            (fun bid req =>
               method req = "POST"
               /\ withCredentials (options req) = true
               /\ crossOrigin (options req) = true
               /\ imp (pb_ortb2 (data req)) = [@converter_imp sample_host bid]
               /\ (exists e, imp_ext (@converter_imp sample_host bid) = Some e
                             /\ ext_params e = Some (params bid))
               /\ url req = match param_debug (params bid) with
                            | Some true =>
                                match param_debug_url (params bid) with
                                | Some EmptyString => DEBUG_URL
                                | Some u => u
                                | None => DEBUG_URL
                                end
                            | _ => URL
                            end)
            sample_bids reqs.
Proof.
  split.
  - intros imps br. reflexivity.
  - apply (@buildRequests_one_request_per_bid sample_host
             {| adServerCurrency := None |} sample_bids []).
    intros imps br. reflexivity.
Defined.

Lemma requestId_round_trip_witness :
  @buildRequests sample_host {| adServerCurrency := None |} sample_bids []
  = Ok sample_requests
  /\ In sample_request sample_requests
  /\ body_results (response_body sample_response)
     = Some [sample_result; sample_result]
  /\ exists i,
       imp (pb_ortb2 (data sample_request)) = [i]
       /\ match @interpretResponse sample_host {| adServerCurrency := None |}
                  sample_response sample_request with
          | Ok out => exists b, out = [b] /\ requestId b = imp_id i
          | Throw _ => response_ok (response_body sample_response) = false
          end.
Proof.
  split; [reflexivity |]. split; [simpl; left; reflexivity |].
  split; [reflexivity |].
  apply (@requestId_round_trip sample_host {| adServerCurrency := None |}
           {| adServerCurrency := None |} sample_bids [] sample_requests
           sample_request sample_response sample_result [sample_result]).
  - reflexivity.
  - simpl. left. reflexivity.
  - reflexivity.
Defined.


Lemma interpretResponse_one_bid_witness :
  request_ok sample_request = true
  /\ response_ok (response_body sample_response) = true
  /\ exists b,
       @interpretResponse sample_host {| adServerCurrency := None |}
         sample_response sample_request
       = Ok [b]
       /\ first_result_bid (response_body sample_response) sample_result b.
Proof.
  split; [reflexivity |]. split; [reflexivity |].
  destruct (@interpretResponse_one_bid sample_host
              {| adServerCurrency := None |} sample_response sample_request)
    as [_ [_ H]].
  exact (H eq_refl).
Defined.

(** C3 does not hold for every body with a result: a first result with
    a price and neither [ad] nor vastxml makes interpretResponse throw
    instead of returning a bid. *)
Lemma interpretResponse_throws_without_markup :
  body_results (response_body banner_without_markup)
  = Some [result_without_markup]
  /\ @interpretResponse sample_host {| adServerCurrency := None |}
       banner_without_markup sample_request
     = Throw (TypeError "Cannot read properties of undefined: replace").
Proof.
  split; vm_compute; reflexivity.
Qed.

Lemma banner_ad_kinds_witness :
  isNative (response_body vast_response) = Ok false
  /\ match @interpretResponse sample_host {| adServerCurrency := None |}
            vast_response sample_request with
     | Ok out =>
         exists b a,
           out = [b] /\ ad b = Some a /\ native b = None
           /\ mediaType b = None
           /\ createAd_finish
                (creative_markup (fun s => s)
                   (vast_result
                      ("<VAST>" ++ String CR (String LF "</VAST>")
                       ++ String CR (String LF "")))
                   (body_location_params (response_body vast_response))
                   (sample_params None) "2f6ac468a9c15e")
                (Some "<img src=beacon>")
              = Ok a
     | Throw err =>
         createAd_finish
           (creative_markup (fun s => s)
              (vast_result
                 ("<VAST>" ++ String CR (String LF "</VAST>")
                  ++ String CR (String LF "")))
              (body_location_params (response_body vast_response))
              (sample_params None) "2f6ac468a9c15e")
           (Some "<img src=beacon>")
         = Throw err
     end
  /\ (forall line rest,
        contains_char LF line = false ->
        replace_crlf_global (line ++ String LF rest)
        = chop_cr line ++ replace_crlf_global rest)
  /\ (forall line,
        contains_char LF line = false -> replace_crlf_global line = line)
  /\ (forall v, contains_char LF (replace_crlf_global v) = false).
Proof.
  split; [reflexivity |].
  apply (@banner_ad_kinds sample_host {| adServerCurrency := None |}
           vast_response sample_request
           {| imp_id := "2f6ac468a9c15e";
              imp_ext := Some {| ext_params := Some (sample_params None);
                                 ext_rest := [] |};
              imp_rest := [] |}
           {| ext_params := Some (sample_params None); ext_rest := [] |}
           (sample_params None)
           (vast_result
              ("<VAST>" ++ String CR (String LF "</VAST>")
               ++ String CR (String LF "")))
           []);
    reflexivity.
Defined.

(** C7 does not hold for every newline character: a carriage return
    that no line feed follows stays in the VAST document embedded in the
    bid's markup. *)
Lemma banner_ad_keeps_carriage_return :
  body_results (response_body vast_cr_response)
  = Some [vast_result ("<VAST>" ++ String CR "</VAST>")]
  /\ match @interpretResponse sample_host {| adServerCurrency := None |}
            vast_cr_response sample_request with
     | Ok [b] =>
         match ad b with
         | Some a => contains_char CR a = true
         | None => False
         end
     | _ => False
     end.
Proof.
  split; vm_compute; reflexivity.
Qed.

(** The sample exchange, as the adapter answers it. *)
Example sample_exchange :
  map url sample_requests = [URL; DEBUG_URL]
  /\ map requestId sample_bids_out = ["2f6ac468a9c15e"]
  /\ map ad sample_bids_out = [Some "<div>creative</div><img src=beacon>"].
Proof.
  repeat split.
Qed.


End AdgenerationFacts.

(** * More properties of novatiqIdSystem *)

Module NovatiqCoverage.
Import JsString Novatiq NovatiqFacts.

(** ** getSrcId *)

(** X1: whatever is configured, the source id getSrcId returns has
    exactly three characters. *)
Theorem getSrcId_three_characters (p : ConfigParams) :
  String.length (getSrcId p) = 3%nat.
Proof.
  unfold getSrcId. destruct (sourceid p) as [| | s]; try reflexivity.
  destruct (s =? "")%string; [reflexivity |].
  unfold len.
  destruct (Z.ltb_spec (Z.of_nat (String.length s)) 3) as [L | L];
    [reflexivity |].
  destruct (Z.gtb_spec (Z.of_nat (String.length s)) 3) as [G | G];
    [reflexivity |].
  cbn [orb]. destruct (Bool.eqb (isHex s) false); [reflexivity | lia].
Qed.

Lemma trim_start_length (s : string) :
  (String.length (trim_start s) <= String.length s)%nat.
Proof.
  induction s as [| c s IH]; simpl; [lia |].
  destruct (is_space c); simpl; lia.
Qed.

Lemma hex_value_range (c : ascii) (d : Z) :
  hex_value c = Some d -> 0 <= d < 16.
Proof.
  unfold hex_value.
  destruct ((48 <=? code c) && (code c <=? 57)) eqn:E1;
    [| destruct ((97 <=? code c) && (code c <=? 102)) eqn:E2;
       [| destruct ((65 <=? code c) && (code c <=? 70)) eqn:E3]];
    intros H; try discriminate; injection H as <-;
    match goal with
    | E : (_ && _) = true |- _ => apply andb_true_iff in E; destruct E
    end; lia.
Qed.

(** The digits parsed from a string of n characters stay below what n
    more digits can reach. *)
Lemma parse_digits16_Some (s : string) (a : Z) :
  0 <= a ->
  exists v, parse_digits16 s (Some a) = Some v
            /\ 0 <= v < (a + 1) * 16 ^ Z.of_nat (String.length s).
Proof.
  revert a. induction s as [| c s IH]; intros a Ha.
  - exists a. simpl. split; [reflexivity | lia].
  - cbn [parse_digits16 String.length]. rewrite Nat2Z.inj_succ, Z.pow_succ_r by lia.
    assert (P : 0 < 16 ^ Z.of_nat (String.length s)) by (apply Z.pow_pos_nonneg; lia).
    destruct (hex_value c) as [d |] eqn:Hd.
    + apply hex_value_range in Hd.
      destruct (IH (16 * a + d)) as [v [Ev Bv]]; [lia |].
      exists v. split; [exact Ev |]. nia.
    + exists a. split; [reflexivity | nia].
Qed.

Lemma parse_digits16_None (s : string) :
  match parse_digits16 s None with
  | None => True
  | Some v => 0 <= v < 16 ^ Z.of_nat (String.length s)
  end.
Proof.
  destruct s as [| c s]; [exact I |].
  cbn [parse_digits16 String.length]. rewrite Nat2Z.inj_succ, Z.pow_succ_r by lia.
  assert (P : 0 < 16 ^ Z.of_nat (String.length s)) by (apply Z.pow_pos_nonneg; lia).
  destruct (hex_value c) as [d |] eqn:Hd; [| exact I].
  apply hex_value_range in Hd.
  destruct (parse_digits16_Some s (16 * 0 + d)) as [v [Ev Bv]]; [lia |].
  rewrite Ev. nia.
Qed.

Lemma parse_digits16_short (s : string) :
  (String.length s <= 3)%nat ->
  match parse_digits16 s None with
  | None => True
  | Some v => 0 <= v <= 4095
  end.
Proof.
  intros L. pose proof (parse_digits16_None s) as H.
  destruct (parse_digits16 s None) as [v |]; [| exact I].
  assert (16 ^ Z.of_nat (String.length s) <= 16 ^ 3)
    by (apply Z.pow_le_mono_r; lia).
  change (16 ^ 3) with 4096 in *. lia.
Qed.

Lemma sign_split (u : string) :
  exists sign s1,
    match u with
    | String "-" tl => (-1, tl)
    | String "+" tl => (1, tl)
    | _ => (1, u)
    end = (sign, s1)
    /\ (sign = 1 \/ sign = -1)
    /\ (String.length s1 <= String.length u)%nat.
Proof.
  destruct u as [| c tl].
  - exists 1, "". auto.
  - destruct c as [[] [] [] [] [] [] [] []];
      (eexists; eexists; split; [reflexivity |]; split;
       [auto | simpl; lia]).
Qed.

Lemma prefix_strip_length (s1 : string) :
  (String.length match s1 with
                 | String "0" (String "x" tl) => tl
                 | String "0" (String "X" tl) => tl
                 | _ => s1
                 end <= String.length s1)%nat.
Proof.
  destruct s1 as [| c1 [| c2 tl]].
  - simpl. lia.
  - destruct c1 as [[] [] [] [] [] [] [] []]; simpl; lia.
  - destruct (Ascii.eqb_spec c1 "0") as [-> | N1].
    + destruct c2 as [[] [] [] [] [] [] [] []]; simpl; lia.
    + destruct c1 as [[] [] [] [] [] [] [] []];
        try (simpl; lia); exfalso; auto.
Qed.

(** parseInt of three characters is NaN or at most three digits long. *)
Lemma parseInt16_three (s : string) :
  String.length s = 3%nat ->
  match parseInt16 s with
  | None => True
  | Some z => -4095 <= z <= 4095
  end.
Proof.
  intros L. unfold parseInt16.
  pose proof (trim_start_length s) as T. rewrite L in T.
  destruct (sign_split (trim_start s)) as [sign [s1 [E [Hs L1]]]].
  rewrite E.
  pose proof (prefix_strip_length s1) as L2.
  pose proof (parse_digits16_short _ (Nat.le_trans _ _ _ L2
                                         (Nat.le_trans _ _ _ L1 T))) as B.
  destruct (parse_digits16 _ None) as [v |]; [| exact I].
  destruct Hs as [-> | ->]; lia.
Qed.

Lemma toString16_three_accepted (z : Z) :
  -4095 <= z <= 4095 ->
  String.length (toString16 (Some z)) = 3%nat ->
  accepted_sourceid (toString16 (Some z)) = true.
Proof.
  intros B L.
  assert (F : forallb
                (fun k =>
                   implb (Nat.eqb
                            (String.length
                               (toString16 (Some (Z.of_nat k - 4095)))) 3)
                         (accepted_sourceid
                            (toString16 (Some (Z.of_nat k - 4095)))))
                (seq 0 (Z.to_nat 8191)) = true) by (vm_compute; reflexivity).
  rewrite forallb_forall in F.
  specialize (F (Z.to_nat (z + 4095))).
  replace (Z.of_nat (Z.to_nat (z + 4095)) - 4095) with z in F by lia.
  rewrite L in F. apply F, in_seq. lia.
Qed.

Lemma isHex_accepted (s : string) :
  String.length s = 3%nat -> isHex s = true -> accepted_sourceid s = true.
Proof.
  intros L H. unfold isHex in H. apply String.eqb_eq in H.
  pose proof (parseInt16_three s L) as B.
  destruct (parseInt16 s) as [z |].
  - rewrite <- H. apply toString16_three_accepted; [exact B |].
    rewrite H. exact L.
  - rewrite <- H. reflexivity.
Qed.

Lemma is_lower_hex_In (c : ascii) :
  is_lower_hex c = true ->
  In c (list_ascii_of_string "0123456789abcdef").
Proof.
  destruct c as [[] [] [] [] [] [] [] []]; intros H;
    try discriminate H; simpl; tauto.
Qed.

Lemma accepted_isHex (s : string) :
  accepted_sourceid s = true -> isHex s = true.
Proof.
  intros H.
  set (L := list_ascii_of_string "0123456789abcdef-N").
  assert (F : forallb
                (fun a =>
                   forallb
                     (fun b =>
                        forallb
                          (fun c =>
                             implb
                               (accepted_sourceid
                                  (String a (String b (String c ""))))
                               (isHex (String a (String b (String c "")))))
                          L) L) L = true) by (vm_compute; reflexivity).
  assert (HL : forall c, is_lower_hex c = true -> In c L).
  { intros c Hc. apply is_lower_hex_In in Hc. subst L.
    change (list_ascii_of_string "0123456789abcdef-N")
      with (list_ascii_of_string "0123456789abcdef"
            ++ list_ascii_of_string "-N")%list.
    apply in_or_app. auto. }
  assert (Hm : In "-"%char L) by (subst L; simpl; tauto).
  assert (HN : In "N"%char L) by (subst L; simpl; tauto).
  assert (Ha : In "a"%char L) by (subst L; simpl; tauto).
  destruct s as [| a [| b [| c [| d s]]]]; try discriminate H.
  assert (I3 : In a L /\ In b L /\ In c L).
  { unfold accepted_sourceid in H.
    apply orb_true_iff in H. destruct H as [H | H].
    - apply orb_true_iff in H. destruct H as [H | H].
      + repeat (apply andb_true_iff in H; destruct H as [H ?]). auto.
      + repeat (apply andb_true_iff in H; destruct H as [H ?]).
        apply Ascii.eqb_eq in H. subst a. auto.
    - apply String.eqb_eq in H. injection H as -> -> ->. auto. }
  destruct I3 as [Ia [Ib Ic]].
  rewrite forallb_forall in F. specialize (F a Ia).
  rewrite forallb_forall in F. specialize (F b Ib).
  rewrite forallb_forall in F. specialize (F c Ic).
  rewrite H in F. exact F.
Qed.

(** X2: a configured source id of three characters comes back unchanged
    exactly when it is three lower-case hexadecimal digits with a first
    digit other than 0, a minus sign before two such digits, or the text
    NaN; every other three-character value gives "002". *)
Theorem getSrcId_accepted (s : string) :
  String.length s = 3%nat ->
  getSrcId {| sourceid := SrcString s |}
  = if accepted_sourceid s then s else "002".
Proof.
  intros L.
  rewrite (getSrcId_three_chars {| sourceid := SrcString s |} s eq_refl L).
  destruct (isHex s) eqn:H.
  - rewrite (isHex_accepted s L H). reflexivity.
  - destruct (accepted_sourceid s) eqn:A; [| reflexivity].
    apply accepted_isHex in A. congruence.
Qed.

Lemma getSrcId_accepted_witness :
  String.length "-1a" = 3%nat
  /\ getSrcId {| sourceid := SrcString "-1a" |}
     = if accepted_sourceid "-1a" then "-1a" else "002".
Proof.
  split; [reflexivity |].
  apply (getSrcId_accepted "-1a"). reflexivity.
Defined.

(** ** snowflakeId *)

Lemma replace_018_draws (random random' : nat -> Q) (s : string) (k : nat) :
  (forall j, (j < count_018 s)%nat ->
             scaled_random (random (k + j)%nat)
             = scaled_random (random' (k + j)%nat)) ->
  replace_018 random k s = replace_018 random' k s.
Proof.
  revert k. induction s as [| c s IH]; intros k H; [reflexivity |].
  cbn [replace_018 count_018] in *. destruct (is_018 c).
  - unfold snowflake_digit.
    replace (scaled_random (random k)) with (scaled_random (random' k))
      by (symmetry; rewrite <- (Nat.add_0_r k); apply H; lia).
    f_equal. apply IH. intros j Hj.
    replace (S k + j)%nat with (k + S j)%nat by lia. apply H. lia.
  - f_equal. apply IH. exact H.
Qed.

(** X4: the identifier is decided by the first 35 results of
    Math.random, one for each 0, 1 or 8 of the template, and by no more
    of each than the integer part of sixteen times it. *)
Theorem snowflakeId_draws (random random' : nat -> Q) :
  (forall j, (j < 35)%nat ->
             scaled_random (random j) = scaled_random (random' j)) ->
  snowflakeId random = snowflakeId random'.
Proof.
  intros H. unfold snowflakeId. apply replace_018_draws.
  change (count_018 snowflake_template) with 35%nat.
  intros j Hj. apply H. exact Hj.
Qed.

Lemma snowflakeId_draws_witness :
  (forall j, (j < 35)%nat ->
             scaled_random ((fun _ => 0%Q) j)
             = scaled_random
                 ((fun k => if (k <? 35)%nat then 1 # 32 else 1 # 2) j))
  /\ snowflakeId (fun _ => 0%Q)
     = snowflakeId (fun k => if (k <? 35)%nat then 1 # 32 else 1 # 2).
Proof.
  assert (R : forall j, (j < 35)%nat ->
                scaled_random ((fun _ => 0%Q) j)
                = scaled_random
                    ((fun k => if (k <? 35)%nat then 1 # 32 else 1 # 2) j)).
  { intros j Hj. cbv beta.
    destruct (Nat.ltb_spec j 35) as [_ | G]; [reflexivity | lia]. }
  split; [exact R |].
  exact (snowflakeId_draws (fun _ => 0%Q)
           (fun k => if (k <? 35)%nat then 1 # 32 else 1 # 2) R).
Defined.

(** ** getId over a sequence of runs *)





End NovatiqCoverage.

(** * More properties of the string builtins *)

Module JsStringCoverage.
Import JsString JsStringFacts.

(** ** Lengths and slices *)

Lemma length_append (a b : string) :
  String.length (a ++ b) = (String.length a + String.length b)%nat.
Proof.
  induction a as [| c a IH]; simpl; [reflexivity | now rewrite IH].
Qed.

Lemma append_nil_r (a : string) : a ++ "" = a.
Proof.
  induction a as [| c a IH]; simpl; [reflexivity | now rewrite IH].
Qed.

Lemma append_assoc_r (a b c : string) : (a ++ b) ++ c = a ++ b ++ c.
Proof.
  induction a as [| x a IH]; simpl; [reflexivity | now rewrite IH].
Qed.

Lemma substring_0_0 (s : string) : substring 0 0 s = "".
Proof.
  destruct s; reflexivity.
Qed.

Lemma substring_0_app_more (a b : string) (n : nat) :
  substring 0 (String.length a + n) (a ++ b) = a ++ substring 0 n b.
Proof.
  induction a as [| c a IH]; simpl; [reflexivity | now rewrite IH].
Qed.

Lemma substring_skip_app (a b : string) (n m : nat) :
  substring (String.length a + n) m (a ++ b) = substring n m b.
Proof.
  induction a as [| c a IH]; simpl; [reflexivity | exact IH].
Qed.

Lemma substring_0_ge (s : string) (n : nat) :
  (String.length s <= n)%nat -> substring 0 n s = s.
Proof.
  revert n. induction s as [| c s IH]; intros n H.
  - destruct n; reflexivity.
  - destruct n as [| n]; simpl in *; [lia |]. rewrite IH by lia. reflexivity.
Qed.

Lemma substring_0_app_less (a b : string) (n : nat) :
  (n <= String.length a)%nat -> substring 0 n (a ++ b) = substring 0 n a.
Proof.
  revert n. induction a as [| c a IH]; intros n H; simpl in *.
  - replace n with 0%nat by lia. rewrite !substring_0_0. reflexivity.
  - destruct n as [| n]; [reflexivity |]. simpl. rewrite IH by lia.
    reflexivity.
Qed.

(** A string is its first [n] characters followed by the rest. *)
Lemma substring_split (s : string) (n : nat) :
  s = substring 0 n s ++ substring n (String.length s - n) s.
Proof.
  revert n. induction s as [| c s IH]; intros n.
  - destruct n; reflexivity.
  - destruct n as [| n]; simpl.
    + rewrite substring_0_ge by lia. reflexivity.
    + rewrite <- IH. reflexivity.
Qed.

(** ** Prefixes and matches *)

Lemma prefix_app (p r : string) : prefix p (p ++ r) = true.
Proof.
  induction p as [| c p IH]; simpl; [destruct r; reflexivity |].
  destruct (ascii_dec c c) as [_ | N]; [exact IH | contradiction].
Qed.

Lemma prefix_app_r (p s z : string) :
  prefix p s = true -> prefix p (s ++ z) = true.
Proof.
  revert s. induction p as [| c p IH]; intros s H;
    [destruct (s ++ z); reflexivity |].
  destruct s as [| d s]; simpl in *; [discriminate |].
  destruct (ascii_dec c d); [auto | discriminate].
Qed.

Lemma lit_app (pat r : string) : lit pat (pat ++ r) = Some (String.length pat).
Proof.
  unfold lit. rewrite prefix_app. reflexivity.
Qed.

Lemma find_match_skip (m : string -> option nat) (a rest : string)
  (n i : nat) :
  no_match_before m (a ++ rest) (String.length a) = true ->
  m rest = Some n ->
  find_match m (a ++ rest) i = Some ((i + String.length a)%nat, n).
Proof.
  revert i. induction a as [| c a IH]; intros i H Hm.
  - destruct rest; simpl; rewrite Hm, Nat.add_0_r; reflexivity.
  - cbn [append String.length no_match_before find_match] in *.
    destruct (m (String c (a ++ rest))); [discriminate |].
    rewrite (IH (S i) H Hm). f_equal. f_equal. lia.
Qed.

Lemma find_match_none (m : string -> option nat) (s : string) (i : nat) :
  no_match m s = true -> find_match m s i = None.
Proof.
  unfold no_match. revert i. induction s as [| c s IH]; intros i H.
  - cbn in *. destruct (m ""); [discriminate | reflexivity].
  - cbn [String.length no_match_before find_match] in *.
    destruct (m (String c s)); [discriminate | auto].
Qed.

Lemma no_match_before_skip (m : string -> option nat) (a b : string)
  (n : nat) :
  no_match_before m (a ++ b) (String.length a + n) = true ->
  no_match_before m b n = true.
Proof.
  induction a as [| c a IH]; intros H; [exact H |].
  cbn [append String.length Nat.add no_match_before] in H.
  destruct (m (String c (a ++ b))); [discriminate | auto].
Qed.

Lemma no_match_before_app (m : string -> option nat) (a b : string)
  (k : nat) :
  no_match_before m (a ++ b) (String.length a) = true ->
  no_match_before m b k = true ->
  no_match_before m (a ++ b) (String.length a + k) = true.
Proof.
  induction a as [| c a IH]; intros Ha Hb; [exact Hb |].
  cbn [append String.length Nat.add no_match_before] in *.
  destruct (m (String c (a ++ b))); [discriminate | auto].
Qed.

Lemma no_match_app (m : string -> option nat) (a b : string) :
  no_match_before m (a ++ b) (String.length a) = true ->
  no_match m b = true ->
  no_match m (a ++ b) = true.
Proof.
  unfold no_match. intros Ha Hb.
  rewrite length_append.
  replace (S (String.length a + String.length b))
    with (String.length a + S (String.length b))%nat by lia.
  apply no_match_before_app; assumption.
Qed.

(** A string pattern that matches nowhere early in a string matches
    nowhere early in a prefix of it. *)
Lemma no_match_before_prefix (pat u z : string) (n : nat) :
  no_match_before (lit pat) (u ++ z) n = true ->
  no_match_before (lit pat) u n = true.
Proof.
  revert u. induction n as [| n IH]; intros u H; [reflexivity |].
  cbn [no_match_before] in *.
  unfold lit in *.
  destruct (prefix pat u) eqn:P.
  - rewrite (prefix_app_r pat u z P) in H. discriminate.
  - destruct u as [| c u]; [reflexivity |].
    cbn [append] in H.
    destruct (prefix pat (String c (u ++ z))); [discriminate | auto].
Qed.

(** ** replace *)

Lemma getSubstitution_no_pattern (matched before after repl : string) :
  no_dollar_pattern repl = true ->
  getSubstitution matched before after repl = repl.
Proof.
  induction repl as [| c repl IH]; intros H; [reflexivity |].
  cbn [no_dollar_pattern] in H. apply andb_true_iff in H.
  destruct H as [Hc Hr]. cbn [getSubstitution].
  destruct (c =? "$")%char; [| rewrite (IH Hr); reflexivity].
  destruct repl as [| d repl]; [reflexivity |].
  apply negb_true_iff in Hc.
  repeat (apply orb_false_iff in Hc; destruct Hc as [Hc ?]).
  repeat match goal with E : (d =? _)%char = false |- _ => rewrite E; clear E end.
  rewrite (IH Hr). reflexivity.
Qed.

Lemma no_dollar_pattern_close_tag (s : string) :
  no_dollar_pattern s = true -> no_dollar_pattern (s ++ "</body>") = true.
Proof.
  induction s as [| c s IH]; intros H; [reflexivity |].
  cbn [no_dollar_pattern append] in *. apply andb_true_iff in H.
  destruct H as [Hc Hr]. rewrite (IH Hr), andb_true_r.
  destruct (c =? "$")%char; [| reflexivity].
  destruct s as [| d s]; [reflexivity | exact Hc].
Qed.

(** The replacement of the first match, when it is known where the
    first match is. *)
Lemma replace_first_at (m : string -> option nat) (a tag b repl : string) :
  no_match_before m (a ++ tag ++ b) (String.length a) = true ->
  m (tag ++ b) = Some (String.length tag) ->
  replace_first m (a ++ tag ++ b) repl
  = a ++ getSubstitution tag a b repl ++ b.
Proof.
  intros Hn Hm. unfold replace_first.
  rewrite (find_match_skip m a (tag ++ b) (String.length tag) 0 Hn Hm).
  cbn [Nat.add].
  assert (E1 : substring 0 (String.length a) (a ++ tag ++ b) = a).
  { rewrite <- (Nat.add_0_r (String.length a)).
    rewrite substring_0_app_more, substring_0_0. apply append_nil_r. }
  assert (E2 : substring (String.length a) (String.length tag)
                 (a ++ tag ++ b) = tag).
  { rewrite <- (Nat.add_0_r (String.length a)) at 1.
    rewrite substring_skip_app.
    rewrite <- (Nat.add_0_r (String.length tag)).
    rewrite substring_0_app_more, substring_0_0. apply append_nil_r. }
  assert (E3 : substring (String.length a + String.length tag)
                 (String.length (a ++ tag ++ b)
                  - (String.length a + String.length tag))
                 (a ++ tag ++ b) = b).
  { rewrite !length_append.
    replace (String.length a + (String.length tag + String.length b)
             - (String.length a + String.length tag))%nat
      with (String.length b) by lia.
    rewrite substring_skip_app.
    rewrite <- (Nat.add_0_r (String.length tag)) at 1.
    rewrite substring_skip_app. apply substring_0_ge. lia. }
  rewrite E1, E2, E3. reflexivity.
Qed.

Lemma replace_first_none (m : string -> option nat) (s repl : string) :
  no_match m s = true -> replace_first m s repl = s.
Proof.
  intros H. unfold replace_first. rewrite (find_match_none m s 0 H).
  reflexivity.
Qed.

(** ** indexOf and lastIndexOf *)

Lemma indexOf_from_range (pat s : string) (i : Z) :
  indexOf_from pat s i = -1 \/ i <= indexOf_from pat s i.
Proof.
  revert i. induction s as [| c s IH]; intros i; cbn [indexOf_from].
  - destruct (prefix pat ""); [right; lia | left; reflexivity].
  - destruct (prefix pat (String c s)); [right; lia |].
    destruct (IH (i + 1)) as [E | L]; [left; exact E | right; lia].
Qed.

(** Before the index indexOf returns there is no occurrence. *)
Lemma indexOf_from_first (pat s : string) (i j : Z) :
  indexOf_from pat s i = j -> 0 <= i <= j ->
  no_match_before (lit pat) s (Z.to_nat (j - i)) = true.
Proof.
  revert i. induction s as [| c s IH]; intros i E B; cbn [indexOf_from] in E.
  - destruct (prefix pat "") eqn:P.
    + subst j. rewrite Z.sub_diag. reflexivity.
    + lia.
  - destruct (prefix pat (String c s)) eqn:P.
    + subst j. rewrite Z.sub_diag. reflexivity.
    + destruct (indexOf_from_range pat s (i + 1)) as [E' | L];
        [rewrite E' in E; lia |].
      rewrite E in L.
      replace (Z.to_nat (j - i)) with (S (Z.to_nat (j - (i + 1)))) by lia.
      cbn [no_match_before]. unfold lit at 1. rewrite P.
      apply (IH (i + 1)); [exact E | lia].
Qed.

Lemma indexOf_from_occurrence (pat x y : string) (i : Z) :
  i <= indexOf_from pat (x ++ pat ++ y) i <= i + Z.of_nat (String.length x).
Proof.
  revert i. induction x as [| c x IH]; intros i.
  - cbn [append]. destruct (pat ++ y) eqn:E; cbn [indexOf_from];
      rewrite <- E, prefix_app; simpl; lia.
  - cbn [append indexOf_from String.length].
    destruct (prefix pat (String c (x ++ pat ++ y))); [lia |].
    specialize (IH (i + 1)). lia.
Qed.

Lemma lastIndexOf_from_ge (pat s : string) (i last : Z) :
  last <= i -> last <= lastIndexOf_from pat s i last.
Proof.
  revert i last. induction s as [| c s IH]; intros i last H;
    cbn [lastIndexOf_from].
  - destruct (prefix pat ""); lia.
  - destruct (prefix pat (String c s)).
    + specialize (IH (i + 1) i). lia.
    + specialize (IH (i + 1) last). lia.
Qed.

Lemma lastIndexOf_from_occurrence (pat x y : string) (i last : Z) :
  i + Z.of_nat (String.length x)
  <= lastIndexOf_from pat (x ++ pat ++ y) i last.
Proof.
  revert i last. induction x as [| c x IH]; intros i last.
  - cbn [append String.length]. destruct (pat ++ y) eqn:E;
      cbn [lastIndexOf_from]; rewrite <- E, prefix_app.
    + simpl. lia.
    + pose proof (lastIndexOf_from_ge pat s (i + 1) i). simpl. lia.
  - cbn [append lastIndexOf_from String.length].
    specialize (IH (i + 1)
                  (if prefix pat (String c (x ++ pat ++ y)) then i else last)).
    lia.
Qed.

(** ** The newline replacement *)

(** Only carriage returns and line feeds go. *)
Lemma replace_crlf_global_keeps_step (s : string) :
  drop_newlines (replace_crlf_global s) = drop_newlines s
  /\ forall c, drop_newlines (replace_crlf_global (String c s))
               = drop_newlines (String c s).
Proof.
  induction s as [| d s [IH1 IH2]].
  - split; [reflexivity |]. intros c. simpl.
    destruct (c =? LF)%char eqn:E1; [reflexivity |].
    destruct (c =? CR)%char eqn:E2; simpl; rewrite E1, E2; reflexivity.
  - split; [apply IH2 |]. intros c.
    change (replace_crlf_global (String c (String d s))) with
      (if (c =? LF)%char then replace_crlf_global (String d s)
       else if (c =? CR)%char then
              if (d =? LF)%char then replace_crlf_global s
              else String c (replace_crlf_global (String d s))
            else String c (replace_crlf_global (String d s))).
    change (drop_newlines (String c (String d s))) with
      (if (c =? LF)%char || (c =? CR)%char then drop_newlines (String d s)
       else String c (drop_newlines (String d s))).
    destruct (c =? LF)%char eqn:E1; [apply IH2 |].
    destruct (c =? CR)%char eqn:E2; cbn [orb].
    + destruct (d =? LF)%char eqn:E3.
      * rewrite IH1. cbn [drop_newlines]. rewrite E3. reflexivity.
      * cbn [drop_newlines]. rewrite E1, E2. cbn [orb]. apply IH2.
    + cbn [drop_newlines]. rewrite E1, E2. cbn [orb]. f_equal. apply IH2.
Qed.

Lemma replace_crlf_global_shorter_step (s : string) :
  (String.length (replace_crlf_global s) <= String.length s)%nat
  /\ forall c, (String.length (replace_crlf_global (String c s))
                <= S (String.length s))%nat.
Proof.
  induction s as [| d s [IH1 IH2]].
  - split; [simpl; lia |]. intros c. simpl.
    destruct (c =? LF)%char; [simpl; lia |].
    destruct (c =? CR)%char; simpl; lia.
  - split; [apply IH2 |]. intros c.
    change (replace_crlf_global (String c (String d s))) with
      (if (c =? LF)%char then replace_crlf_global (String d s)
       else if (c =? CR)%char then
              if (d =? LF)%char then replace_crlf_global s
              else String c (replace_crlf_global (String d s))
            else String c (replace_crlf_global (String d s))).
    specialize (IH2 d). cbn [String.length].
    destruct (c =? LF)%char; [lia |].
    destruct (c =? CR)%char; [destruct (d =? LF)%char |];
      cbn [String.length]; lia.
Qed.

(** X5: the replacement [/\r?\n/g -> ''] applied to the VAST XML removes
    carriage returns and line feeds only: the other characters stay, in
    order.  It never lengthens the string, and applying it a second time
    changes nothing. *)
Theorem replace_crlf_global_only_newlines (s : string) :
  drop_newlines (replace_crlf_global s) = drop_newlines s
  /\ (String.length (replace_crlf_global s) <= String.length s)%nat
  /\ replace_crlf_global (replace_crlf_global s) = replace_crlf_global s.
Proof.
  split; [apply replace_crlf_global_keeps_step |].
  split; [apply replace_crlf_global_shorter_step |].
  apply replace_crlf_global_id_step, replace_crlf_global_no_LF.
Qed.

End JsStringCoverage.

(** * More properties of adgenerationBidAdapter *)

Module AdgenerationCoverage.
Import JsString Adgeneration JsStringFacts JsStringCoverage AdgenerationFacts.

(** ** appendChildToBody *)

Lemma appendChildToBody_at (before tag after : string)
  (beacon : option string) :
  no_match_before close_body_re (before ++ tag ++ after)
    (String.length before) = true ->
  close_body_re (tag ++ after) = Some (String.length tag) ->
  no_dollar_pattern (to_string beacon) = true ->
  appendChildToBody (Some (before ++ tag ++ after)) beacon
  = Ok (before ++ to_string beacon ++ "</body>" ++ after).
Proof.
  intros Hn Hm Hd. unfold appendChildToBody. cbn [prop_of bind].
  rewrite (replace_first_at close_body_re before tag after _ Hn Hm).
  rewrite getSubstitution_no_pattern.
  - rewrite append_assoc_r. reflexivity.
  - apply no_dollar_pattern_close_tag. exact Hd.
Qed.

(** X6: when the first closing body tag of the markup is [tag], with or
    without a blank after the slash, and no dollar sign of the beacon
    starts a replacement pattern, appendChildToBody puts the beacon
    right before that tag and writes the tag as [</body>]; everything
    before and after stays.  A result without beacon gets the text
    undefined there. *)
Theorem appendChildToBody_inserts (before tag after : string)
  (beacon : option string) :
  no_match_before close_body_re (before ++ tag ++ after)
    (String.length before) = true ->
  close_body_re (tag ++ after) = Some (String.length tag) ->
  no_dollar_pattern (to_string beacon) = true ->
  appendChildToBody (Some (before ++ tag ++ after)) beacon
  = Ok (before
        ++ match beacon with Some b => b | None => "undefined" end
        ++ "</body>" ++ after).
Proof.
  intros Hn Hm Hd.
  rewrite (appendChildToBody_at before tag after beacon Hn Hm Hd).
  destruct beacon; reflexivity.
Qed.

Lemma appendChildToBody_inserts_witness :
  no_match_before close_body_re
    ("<body><div>x</div>" ++ "</ body>" ++ "</html>")
    (String.length "<body><div>x</div>") = true
  /\ close_body_re ("</ body>" ++ "</html>")
     = Some (String.length "</ body>")
  /\ no_dollar_pattern
       (to_string (Some "<img src=b?p=${AUCTION_PRICE}>")) = true
  /\ appendChildToBody
       (Some ("<body><div>x</div>" ++ "</ body>" ++ "</html>"))
       (Some "<img src=b?p=${AUCTION_PRICE}>")
     = Ok ("<body><div>x</div>" ++ "<img src=b?p=${AUCTION_PRICE}>"
           ++ "</body>" ++ "</html>").
Proof.
  split; [reflexivity |]. split; [reflexivity |]. split; [reflexivity |].
  apply (appendChildToBody_inserts "<body><div>x</div>" "</ body>" "</html>"
           (Some "<img src=b?p=${AUCTION_PRICE}>")); reflexivity.
Defined.

(** X7: markup with no closing body tag comes back from
    appendChildToBody as it went in: the beacon is not added anywhere. *)
Theorem appendChildToBody_without_tag (ad : string) (beacon : option string) :
  no_match close_body_re ad = true ->
  appendChildToBody (Some ad) beacon = Ok ad.
Proof.
  intros H. unfold appendChildToBody. cbn [prop_of bind].
  rewrite (replace_first_none close_body_re ad _ H). reflexivity.
Qed.

Lemma appendChildToBody_without_tag_witness :
  no_match close_body_re "<div>creative</div>" = true
  /\ appendChildToBody (Some "<div>creative</div>") (Some "<img src=b>")
     = Ok "<div>creative</div>".
Proof.
  split; [reflexivity |].
  apply (appendChildToBody_without_tag "<div>creative</div>"
           (Some "<img src=b>")). reflexivity.
Defined.

(** ** removeWrapper *)

Lemma replace_head (pat r : string) : replace (pat ++ r) pat "" = r.
Proof.
  unfold replace.
  pose proof (replace_first_at (lit pat) "" pat r "" eq_refl (lit_app pat r))
    as H.
  cbn [append String.length] in H. rewrite H. reflexivity.
Qed.

Lemma substring_skip_app_0 (a b : string) (m : nat) :
  substring (String.length a) m (a ++ b) = substring 0 m b.
Proof.
  rewrite <- (Nat.add_0_r (String.length a)). apply substring_skip_app.
Qed.

(** The part of the markup removeWrapper hands to its two replacements:
    from the opening tag on, as many characters as the index of the
    closing tag says, and so as many characters past the closing tag's
    start as stand before the opening tag. *)
Lemma removeWrapper_substr (pre inner tail : string) :
  substr (pre ++ "<body>" ++ inner ++ "</body>" ++ tail)
    (len pre) (Z.of_nat (String.length (pre ++ "<body>" ++ inner)))
  = "<body>" ++ inner
    ++ substring 0 (String.length pre) ("</body>" ++ tail).
Proof.
  unfold substr, len.
  assert (La : String.length (pre ++ "<body>" ++ inner ++ "</body>" ++ tail)
               = (String.length pre
                  + (6 + String.length inner + (7 + String.length tail)))%nat).
  { rewrite !length_append. simpl. lia. }
  assert (Lx : String.length (pre ++ "<body>" ++ inner)
               = (String.length pre + (6 + String.length inner))%nat).
  { rewrite !length_append. simpl. lia. }
  rewrite La, Lx.
  replace (Z.of_nat (String.length pre) <? 0) with false
    by (symmetry; apply Z.ltb_ge; lia).
  rewrite Z.min_l by lia. rewrite Nat2Z.id.
  rewrite substring_skip_app_0.
  replace ("<body>" ++ inner ++ "</body>" ++ tail)
    with (("<body>" ++ inner) ++ "</body>" ++ tail)
    by (rewrite append_assoc_r; reflexivity).
  replace ("<body>" ++ inner
           ++ substring 0 (String.length pre) ("</body>" ++ tail))
    with (("<body>" ++ inner)
          ++ substring 0 (String.length pre) ("</body>" ++ tail))
    by (rewrite append_assoc_r; reflexivity).
  destruct (Nat.le_gt_cases (String.length pre) (7 + String.length tail))
    as [A | B].
  - replace (Z.to_nat
               (Z.min
                  (Z.max
                     (Z.of_nat (String.length pre
                                + (6 + String.length inner))) 0)
                  (Z.of_nat
                     (String.length pre
                      + (6 + String.length inner
                         + (7 + String.length tail)))
                   - Z.of_nat (String.length pre))))
      with (String.length ("<body>" ++ inner) + String.length pre)%nat
      by (rewrite length_append; simpl; lia).
    apply substring_0_app_more.
  - replace (Z.to_nat
               (Z.min
                  (Z.max
                     (Z.of_nat (String.length pre
                                + (6 + String.length inner))) 0)
                  (Z.of_nat
                     (String.length pre
                      + (6 + String.length inner
                         + (7 + String.length tail)))
                   - Z.of_nat (String.length pre))))
      with (String.length (("<body>" ++ inner) ++ "</body>" ++ tail))
      by (rewrite !length_append; simpl; lia).
    rewrite substring_0_ge by lia.
    rewrite (substring_0_ge ("</body>" ++ tail))
      by (rewrite length_append; simpl; lia).
    reflexivity.
Qed.

Lemma short_close_tag_no_match (k : nat) :
  (k < 7)%nat -> no_match (lit "</body>") (substring 0 k "</body>") = true.
Proof.
  intros H.
  do 7 (destruct k as [| k]; [reflexivity |]). lia.
Qed.

(** What removeWrapper returns for markup with one closing body tag. *)
Lemma removeWrapper_at (pre inner tail : string) :
  indexOf (pre ++ "<body>" ++ inner ++ "</body>" ++ tail) "<body>"
  = len pre ->
  indexOf (pre ++ "<body>" ++ inner ++ "</body>" ++ tail) "</body>"
  = lastIndexOf (pre ++ "<body>" ++ inner ++ "</body>" ++ tail) "</body>" ->
  removeWrapper (pre ++ "<body>" ++ inner ++ "</body>" ++ tail)
  = Some (inner
          ++ if (String.length pre <? 7)%nat
             then substring 0 (String.length pre) "</body>"
             else substring 0 (String.length pre - 7) tail).
Proof.
  intros H1 H2.
  set (x := pre ++ "<body>" ++ inner).
  assert (Ead : pre ++ "<body>" ++ inner ++ "</body>" ++ tail
                = x ++ "</body>" ++ tail).
  { unfold x. rewrite !append_assoc_r. reflexivity. }
  pose proof (indexOf_from_occurrence "</body>" x tail 0) as Bi.
  pose proof (lastIndexOf_from_occurrence "</body>" x tail 0 (-1)) as Bl.
  fold (indexOf (x ++ "</body>" ++ tail) "</body>") in Bi.
  fold (lastIndexOf (x ++ "</body>" ++ tail) "</body>") in Bl.
  rewrite <- Ead in Bi, Bl. rewrite <- H2 in Bl.
  assert (Ei : indexOf (pre ++ "<body>" ++ inner ++ "</body>" ++ tail)
                 "</body>" = Z.of_nat (String.length x)) by lia.
  assert (Nb : no_match_before (lit "</body>")
                 (pre ++ "<body>" ++ inner ++ "</body>" ++ tail)
                 (String.length x) = true).
  { pose proof (indexOf_from_first "</body>" _ 0 _ Ei) as F.
    rewrite Z.sub_0_r, Nat2Z.id in F. apply F. lia. }
  unfold removeWrapper. rewrite H1, <- H2, Ei.
  replace (len pre =? -1) with false
    by (symmetry; apply Z.eqb_neq; unfold len; lia).
  replace (Z.of_nat (String.length x) =? -1) with false
    by (symmetry; apply Z.eqb_neq; lia).
  cbn [orb]. unfold x at 1. rewrite removeWrapper_substr.
  rewrite replace_head. f_equal.
  assert (Ni : no_match_before (lit "</body>")
                 (inner
                  ++ substring 0 (String.length pre) ("</body>" ++ tail))
                 (String.length inner) = true).
  { apply (no_match_before_prefix "</body>" _
             (substring (String.length pre)
                (String.length ("</body>" ++ tail) - String.length pre)
                ("</body>" ++ tail))).
    rewrite append_assoc_r.
    rewrite <- (substring_split ("</body>" ++ tail) (String.length pre)).
    apply (no_match_before_skip (lit "</body>") (pre ++ "<body>")).
    rewrite append_assoc_r.
    replace (String.length (pre ++ "<body>") + String.length inner)%nat
      with (String.length x)
      by (unfold x; rewrite !length_append; simpl; lia).
    exact Nb. }
  unfold replace.
  destruct (Nat.ltb_spec (String.length pre) 7) as [Lt | Ge].
  - rewrite (substring_0_app_less "</body>" tail) in * by (simpl; lia).
    apply replace_first_none, no_match_app; [exact Ni |].
    apply short_close_tag_no_match. exact Lt.
  - replace (String.length pre)
      with (String.length "</body>" + (String.length pre - 7))%nat in Ni |- *
      at 1 by (simpl; lia).
    rewrite substring_0_app_more in *.
    rewrite (replace_first_at (lit "</body>") inner "</body>" _ ""
               Ni (lit_app _ _)).
    reflexivity.
Qed.

(** X8: for markup with exactly one closing body tag, written
    [pre ++ "<body>" ++ inner ++ "</body>" ++ tail] with the first
    opening tag after [pre], removeWrapper returns [inner] followed by
    as many characters as [pre] has, taken from what follows [inner]:
    nothing when the markup starts with the opening tag, the first
    characters of the closing tag when up to six characters precede it,
    and the start of [tail], the closing tag removed, when seven or more
    do. *)
Theorem removeWrapper_slice (pre inner tail : string) :
  indexOf (pre ++ "<body>" ++ inner ++ "</body>" ++ tail) "<body>"
  = len pre ->
  indexOf (pre ++ "<body>" ++ inner ++ "</body>" ++ tail) "</body>"
  = lastIndexOf (pre ++ "<body>" ++ inner ++ "</body>" ++ tail) "</body>" ->
  removeWrapper (pre ++ "<body>" ++ inner ++ "</body>" ++ tail)
  = Some (inner
          ++ if (String.length pre <? 7)%nat
             then substring 0 (String.length pre) "</body>"
             else substring 0 (String.length pre - 7) tail).
Proof.
  exact (removeWrapper_at pre inner tail).
Qed.

Lemma removeWrapper_slice_witness :
  indexOf ("<!doctype>" ++ "<body>" ++ "<p>ad</p>" ++ "</body>" ++ "<!-- end -->")
    "<body>" = len "<!doctype>"
  /\ indexOf ("<!doctype>" ++ "<body>" ++ "<p>ad</p>" ++ "</body>"
              ++ "<!-- end -->") "</body>"
     = lastIndexOf ("<!doctype>" ++ "<body>" ++ "<p>ad</p>" ++ "</body>"
                    ++ "<!-- end -->") "</body>"
  /\ removeWrapper ("<!doctype>" ++ "<body>" ++ "<p>ad</p>" ++ "</body>"
                    ++ "<!-- end -->")
     = Some ("<p>ad</p>" ++ "<!-").
Proof.
  split; [reflexivity |]. split; [reflexivity |].
  apply (removeWrapper_slice "<!doctype>" "<p>ad</p>" "<!-- end -->");
    reflexivity.
Defined.

(** ** createAd *)

Lemma indexOf_head (pat r : string) : indexOf (pat ++ r) pat = 0.
Proof.
  unfold indexOf. destruct (pat ++ r) eqn:E; cbn [indexOf_from];
    rewrite <- E, prefix_app; reflexivity.
Qed.

(** X9: for markup that starts with the opening body tag, whose first
    closing body tag follows [inner], with a beacon free of replacement
    patterns and one closing tag in all once the beacon is in, the tail of
    createAd returns [inner] followed by the beacon: the wrapper tags and
    whatever stood after the closing tag are gone.  When [inner] and the
    beacon are both empty the wrapper is not removed. *)
Theorem createAd_finish_body_first (inner tag tail : string)
  (beacon : option string) :
  no_match_before close_body_re (("<body>" ++ inner) ++ tag ++ tail)
    (String.length ("<body>" ++ inner)) = true ->
  close_body_re (tag ++ tail) = Some (String.length tag) ->
  no_dollar_pattern (to_string beacon) = true ->
  indexOf ("<body>" ++ (inner ++ to_string beacon) ++ "</body>" ++ tail)
    "</body>"
  = lastIndexOf
      ("<body>" ++ (inner ++ to_string beacon) ++ "</body>" ++ tail)
      "</body>" ->
  createAd_finish (Some (("<body>" ++ inner) ++ tag ++ tail)) beacon
  = Ok (if (inner ++ to_string beacon =? "")%string
        then "<body></body>" ++ tail
        else inner ++ to_string beacon).
Proof.
  intros Hn Hm Hd H2. unfold createAd_finish.
  rewrite (appendChildToBody_at ("<body>" ++ inner) tag tail beacon Hn Hm Hd).
  cbn [bind].
  replace (("<body>" ++ inner) ++ to_string beacon ++ "</body>" ++ tail)
    with ("" ++ "<body>" ++ (inner ++ to_string beacon) ++ "</body>" ++ tail)
    by (cbn [append]; rewrite !append_assoc_r; reflexivity).
  rewrite (removeWrapper_at "" (inner ++ to_string beacon) tail).
  - cbn [String.length Nat.ltb Nat.leb]. rewrite substring_0_0, append_nil_r.
    destruct (String.eqb_spec (inner ++ to_string beacon) "") as [E | N];
      [| reflexivity].
    rewrite E. reflexivity.
  - cbn [append]. apply (indexOf_head "<body>").
  - cbn [append]. exact H2.
Qed.

Lemma createAd_finish_body_first_witness :
  no_match_before close_body_re
    (("<body>" ++ "<div>creative</div>") ++ "</body>" ++ "</html>")
    (String.length ("<body>" ++ "<div>creative</div>")) = true
  /\ close_body_re ("</body>" ++ "</html>") = Some (String.length "</body>")
  /\ no_dollar_pattern (to_string (Some "<img src=beacon>")) = true
  /\ indexOf ("<body>"
              ++ ("<div>creative</div>" ++ to_string (Some "<img src=beacon>"))
              ++ "</body>" ++ "</html>") "</body>"
     = lastIndexOf
         ("<body>"
          ++ ("<div>creative</div>" ++ to_string (Some "<img src=beacon>"))
          ++ "</body>" ++ "</html>") "</body>"
  /\ createAd_finish
       (Some (("<body>" ++ "<div>creative</div>") ++ "</body>" ++ "</html>"))
       (Some "<img src=beacon>")
     = Ok (if ("<div>creative</div>" ++ to_string (Some "<img src=beacon>")
               =? "")%string
           then "<body></body>" ++ "</html>"
           else "<div>creative</div>" ++ to_string (Some "<img src=beacon>")).
Proof.
  split; [reflexivity |]. split; [reflexivity |]. split; [reflexivity |].
  split; [reflexivity |].
  apply (createAd_finish_body_first "<div>creative</div>" "</body>" "</html>"
           (Some "<img src=beacon>")); reflexivity.
Defined.

Section Coverage.
Context {host : Host}.

Lemma isUpperBillboard_kind (r : AdResult) (l : option LocationParams)
  (c : ascii) (v : string) :
  res_vastxml r = Some (String c v) ->
  creative_kind r l
  = if isUpperBillboard l then BrowserMPlayer (String c v)
    else ApvPlayer (String c v).
Proof.
  intros E. unfold creative_kind, isUpperBillboard, placement_ad_type.
  rewrite E.
  destruct l as [[[[[a |]] |]] |]; cbn [lp_option ad_type];
    unfold truthy_str, to_string; try reflexivity.
  destruct a as [| x a]; [reflexivity |].
  change (negb (String x a =? "")%string) with true. cbv match.
  destruct (String x a =? "upper_billboard")%string; reflexivity.
Qed.

(** X10: createAd throws in two cases only: the result has neither a
    non-empty vastxml nor [ad] markup, or it has a vastxml for an
    upper_billboard placement and no adapter parameters were passed.
    The APV player is built without reading the parameters. *)
Theorem createAd_throws_cases (r : AdResult) (l : option LocationParams)
  (bidParams : option Params) (requestId : string) :
  is_ok (createAd r l bidParams requestId)
  = match creative_kind r l with
    | ServerMarkup => match res_ad r with Some _ => true | None => false end
    | BrowserMPlayer _ =>
        match bidParams with Some _ => true | None => false end
    | ApvPlayer _ => true
    end.
Proof.
  destruct (res_vastxml r) as [[| c v] |] eqn:E.
  - unfold createAd, createAd_markup, creative_kind. rewrite E.
    change (0 <? String.length "")%nat with false. cbv match. cbn [bind].
    apply createAd_finish_is_ok.
  - rewrite (isUpperBillboard_kind r l c v E).
    unfold createAd, createAd_markup. rewrite E.
    change (0 <? String.length (String c v))%nat with true. cbv match.
    destruct (isUpperBillboard l).
    + destruct bidParams as [bp |]; cbn [prop_of bind]; [| reflexivity].
      apply createAd_finish_is_ok.
    + cbn [bind]. apply createAd_finish_is_ok.
  - unfold createAd, createAd_markup, creative_kind. rewrite E. cbn [bind].
    apply createAd_finish_is_ok.
Qed.

(** ** buildRequests *)

Lemma getCurrencyType_two_values (cfg : Config) :
  getCurrencyType cfg = "USD" \/ getCurrencyType cfg = "JPY".
Proof.
  unfold getCurrencyType. destruct (adServerCurrency cfg) as [c |]; auto.
  destruct (truthy_str (Some c) && (toUpperCase c =? "USD")%string); auto.
Qed.

Lemma buildRequest_of_imp_is_ok (cfg : Config) (other : list (string * json))
  (i : Imp) :
  is_ok (buildRequest_of_imp cfg other i) = has_params i.
Proof.
  unfold buildRequest_of_imp, has_params.
  destruct (imp_ext i) as [e |]; [| reflexivity].
  destruct (ext_params e); reflexivity.
Qed.

Lemma mapM_is_ok {A B : Type} (f : A -> result B) (l : list A) :
  is_ok (mapM f l) = forallb (fun a => is_ok (f a)) l.
Proof.
  induction l as [| a l IH]; cbn [mapM forallb]; [reflexivity |].
  destruct (f a) as [b | e]; cbn [bind is_ok andb]; [| reflexivity].
  rewrite <- IH. destruct (mapM f l); reflexivity.
Qed.

Lemma forallb_same {A : Type} (f g : A -> bool) (l : list A) :
  (forall a, f a = g a) -> forallb f l = forallb g l.
Proof.
  intros H. induction l as [| a l IH]; cbn [forallb]; [reflexivity |].
  rewrite H, IH. reflexivity.
Qed.

(** X11: buildRequests returns one request for each impression of the
    converted request, in order, unless an impression has no ext.params,
    in which case it throws.  The payload of a request holds under
    pb_ortb2 its impression alone with the other fields of the converted
    request, which every request of the batch shares, and the currency
    getCurrencyType resolves. *)
Theorem buildRequests_per_impression (cfg : Config)
  (bids : list BidRequest) (bidderRequest : BidderRequest) :
  is_ok (buildRequests cfg bids bidderRequest)
  = forallb has_params (imp (toORTB bids bidderRequest))
  /\ match buildRequests cfg bids bidderRequest with
     | Ok reqs =>
         Forall2
           (fun i req =>
              pb_ortb2 (data req)
              = {| imp := [i];
                   otherParams := otherParams (toORTB bids bidderRequest) |}
              /\ payload_currency (data req) = getCurrencyType cfg
              /\ (payload_currency (data req) = "USD"
                  \/ payload_currency (data req) = "JPY"))
           (imp (toORTB bids bidderRequest)) reqs
     | Throw _ => True
     end.
Proof.
  unfold buildRequests. cbv zeta. split.
  - rewrite mapM_is_ok. apply forallb_same. intros i.
    apply buildRequest_of_imp_is_ok.
  - destruct (mapM _ _) as [reqs | e] eqn:E; [| exact I].
    apply mapM_Ok in E. eapply Forall2_impl; [| exact E].
    intros i req H. cbv beta in H. unfold buildRequest_of_imp in H.
    destruct (imp_ext i) as [ext |]; [| discriminate H].
    destruct (ext_params ext) as [p' |]; [| discriminate H].
    cbn [prop_of bind] in H. injection H as <-. cbn.
    split; [reflexivity |]. split; [reflexivity |].
    apply getCurrencyType_two_values.
Qed.

(** ** interpretResponse *)

Lemma str_or_empty (o : option string) :
  str_or o "" = match o with Some d => d | None => "" end.
Proof.
  destruct o as [[| c d] |]; reflexivity.
Qed.

Lemma isNative_body_is_native (body : Body) (b : bool) :
  isNative body = Ok b -> b = body_is_native body.
Proof.
  unfold isNative, body_is_native.
  destruct (body_native_ad body) as [na |]; [| intros H; congruence].
  destruct (na_assets na) as [[| a assets] |]; cbn; intros H; congruence.
Qed.

(** X12: every bid interpretResponse returns has netRevenue set, the
    currency getCurrencyType resolves and the body's dealid, the empty
    string when there is none.  It is of one of two kinds, decided by
    the body having a native_ad with a non-empty assets array: a native
    bid, with [native] assets, mediaType native and no [ad] markup, or a
    banner bid, with [ad] markup and neither [native] nor mediaType. *)
Theorem interpretResponse_bid_kind (cfg : Config) (resp : ServerResponse)
  (req : ServerRequest) (out : list Bid) :
  interpretResponse cfg resp req = Ok out ->
  Forall
    (fun b =>
       netRevenue b = true
       /\ currency b = getCurrencyType cfg
       /\ dealId b = match body_dealid (response_body resp) with
                     | Some d => d
                     | None => ""
                     end
       /\ if body_is_native (response_body resp)
          then native b <> None /\ mediaType b = Some "native" /\ ad b = None
          else ad b <> None /\ native b = None /\ mediaType b = None)
    out.
Proof.
  unfold interpretResponse. intros H.
  destruct (body_results (response_body resp)) as [[| r rs] |];
    try (injection H as <-; constructor).
  destruct (nth_error (imp (pb_ortb2 (data req))) 0) as [i |];
    [| discriminate H].
  cbn [prop_of bind] in H.
  destruct (isNative (response_body resp)) as [is_native | e] eqn:En;
    [| discriminate H].
  apply isNative_body_is_native in En. cbn [bind] in H.
  rewrite <- En. destruct is_native.
  - destruct (createNativeAd _ _) as [n | e]; [| discriminate H].
    cbn [bind] in H. injection H as <-. constructor; [| constructor].
    rewrite <- str_or_empty.
    destruct (has_adomain (response_body resp)); cbn;
      repeat split; discriminate.
  - destruct (imp_ext i) as [ext |]; [| discriminate H].
    cbn [prop_of bind] in H.
    destruct (createAd _ _ _ _) as [a | e]; [| discriminate H].
    cbn [bind] in H. injection H as <-. constructor; [| constructor].
    rewrite <- str_or_empty.
    destruct (has_adomain (response_body resp)); cbn;
      repeat split; discriminate.
Qed.

End Coverage.

Lemma interpretResponse_bid_kind_witness :
  exists out,
    @interpretResponse sample_host {| adServerCurrency := Some "Usd" |}
      sample_native_response sample_request = Ok out
    /\ out <> []
    /\ Forall
         (fun b =>
            netRevenue b = true
            /\ currency b = getCurrencyType {| adServerCurrency := Some "Usd" |}
            /\ dealId b = match body_dealid
                                  (response_body sample_native_response) with
                          | Some d => d
                          | None => ""
                          end
            /\ if body_is_native (response_body sample_native_response)
               then native b <> None /\ mediaType b = Some "native"
                    /\ ad b = None
               else ad b <> None /\ native b = None /\ mediaType b = None)
         out.
Proof.
  eexists. split; [vm_compute; reflexivity |]. split; [discriminate |].
  apply (@interpretResponse_bid_kind sample_host
           {| adServerCurrency := Some "Usd" |} sample_native_response
           sample_request).
  vm_compute. reflexivity.
Defined.

(** ** createNativeAd *)

(** X13: for a native_ad with a non-empty assets array, the native
    object createNativeAd returns takes its clickUrl from link.url, its
    clickTrackers from link.clicktrackers and its impressionTrackers
    from imptrackers, an absent list counting as empty; a non-empty
    beaconurl is added at the end of the impressionTrackers, an absent
    or empty one is not. *)
Theorem createNativeAd_trackers (na : NativeAd) (beaconUrl : option string)
  (a : Asset) (assets : list Asset) (n : Native) :
  na_assets na = Some (a :: assets) ->
  createNativeAd (Some na) beaconUrl = Ok n ->
  exists link,
    na_link na = Some link
    /\ native_clickUrl n = link_url link
    /\ native_clickTrackers n
       = Some match link_clicktrackers link with
              | Some l => l
              | None => []
              end
    /\ native_impressionTrackers n
       = Some (match na_imptrackers na with
               | Some l => l
               | None => []
               end
               ++ match beaconUrl with
                  | Some (String c u) => [String c u]
                  | _ => []
                  end)%list.
Proof.
  intros Ha H. unfold createNativeAd in H. rewrite Ha in H.
  cbn [prop_of bind] in H.
  change (0 <? List.length (a :: assets))%nat with true in H. cbv match in H.
  destruct (foldM native_asset (a :: assets) empty_native) as [n0 | e];
    [| discriminate H].
  cbn [bind] in H. destruct (na_link na) as [link |]; [| discriminate H].
  cbn [prop_of bind] in H. injection H as <-. exists link.
  cbn. repeat split.
  unfold list_or_empty, truthy_str, to_string.
  destruct beaconUrl as [[| c u] |]; cbn; rewrite ?app_nil_r; reflexivity.
Qed.

Lemma createNativeAd_trackers_witness :
  exists n,
    na_assets
      (with_assets sample_native_ad
         (title_asset "title text" :: [sponsor_asset "Acme"]))
    = Some (title_asset "title text" :: [sponsor_asset "Acme"])
    /\ createNativeAd
         (Some (with_assets sample_native_ad
                  (title_asset "title text" :: [sponsor_asset "Acme"])))
         (Some "https://beacon") = Ok n
    /\ native_title n = Some "title text"
    /\ native_sponsoredBy n = Some "Acme"
    /\ native_clickTrackers n = Some []
    /\ native_impressionTrackers n = Some ["https://imp1"; "https://beacon"]
    /\ exists link,
         na_link (with_assets sample_native_ad
                    (title_asset "title text" :: [sponsor_asset "Acme"]))
         = Some link
         /\ native_clickUrl n = link_url link
         /\ native_clickTrackers n
            = Some match link_clicktrackers link with
                   | Some l => l
                   | None => []
                   end
         /\ native_impressionTrackers n
            = Some (match na_imptrackers
                            (with_assets sample_native_ad
                               (title_asset "title text"
                                :: [sponsor_asset "Acme"])) with
                    | Some l => l
                    | None => []
                    end
                    ++ match Some "https://beacon" with
                       | Some (String c u) => [String c u]
                       | _ => []
                       end)%list.
Proof.
  eexists. split; [reflexivity |]. split; [vm_compute; reflexivity |].
  split; [reflexivity |]. split; [reflexivity |]. split; [reflexivity |].
  split; [reflexivity |].
  apply (createNativeAd_trackers
           (with_assets sample_native_ad
              (title_asset "title text" :: [sponsor_asset "Acme"]))
           (Some "https://beacon") (title_asset "title text")
           [sponsor_asset "Acme"]);
    [reflexivity | vm_compute; reflexivity].
Defined.

Lemma native_asset_unknown (n : Native) (a : Asset) :
  known_asset a = false -> native_asset n a = Ok n.
Proof.
  unfold known_asset, native_asset. intros H.
  repeat (apply orb_false_iff in H; destruct H as [H ?]).
  repeat match goal with E : is_id a _ = false |- _ => rewrite E; clear E end.
  reflexivity.
Qed.

Lemma foldM_app {A B : Type} (f : B -> A -> result B) (l1 l2 : list A)
  (b : B) :
  foldM f (l1 ++ l2) b = bind (foldM f l1 b) (foldM f l2).
Proof.
  revert b. induction l1 as [| a l1 IH]; intros b; cbn [app foldM bind];
    [reflexivity |].
  destruct (f b a) as [b' | e]; cbn [bind]; [apply IH | reflexivity].
Qed.

(** X14: an asset whose id is none of 1, 2, 3, 4, 5, 6 and 502, or that
    has no id, adds nothing to the native object and cannot make
    createNativeAd throw, whatever subfields it has or lacks: with other
    assets around it, the result is the same as without it. *)
Theorem createNativeAd_unknown_asset (na : NativeAd)
  (beaconUrl : option string) (l1 l2 : list Asset) (a : Asset) :
  known_asset a = false ->
  (l1 ++ l2)%list <> [] ->
  createNativeAd (Some (with_assets na (l1 ++ a :: l2))) beaconUrl
  = createNativeAd (Some (with_assets na (l1 ++ l2))) beaconUrl.
Proof.
  intros Hk Hne. unfold createNativeAd, with_assets.
  cbn [na_assets na_link na_imptrackers prop_of bind].
  assert (E1 : (0 <? List.length (l1 ++ a :: l2))%nat = true)
    by (rewrite length_app; simpl; apply Nat.ltb_lt; lia).
  assert (E2 : (0 <? List.length (l1 ++ l2))%nat = true).
  { apply Nat.ltb_lt. destruct (l1 ++ l2)%list; [contradiction |].
    simpl. lia. }
  rewrite E1, E2.
  rewrite !foldM_app. cbn [foldM].
  destruct (foldM native_asset l1 empty_native) as [n1 | e]; cbn [bind];
    [| reflexivity].
  rewrite (native_asset_unknown n1 a Hk). reflexivity.
Qed.

Lemma createNativeAd_unknown_asset_witness :
  known_asset unknown_asset = false
  /\ ([title_asset "title text"] ++ [sponsor_asset "Acme"])%list <> []
  /\ createNativeAd
       (Some (with_assets sample_native_ad
                ([title_asset "title text"]
                 ++ unknown_asset :: [sponsor_asset "Acme"])))
       (Some "https://beacon")
     = createNativeAd
         (Some (with_assets sample_native_ad
                  ([title_asset "title text"] ++ [sponsor_asset "Acme"])))
         (Some "https://beacon").
Proof.
  split; [reflexivity |]. split; [discriminate |].
  apply (createNativeAd_unknown_asset sample_native_ad
           (Some "https://beacon") [title_asset "title text"]
           [sponsor_asset "Acme"] unknown_asset);
    [reflexivity | discriminate].
Defined.

Lemma all_chars_app (p : ascii -> bool) (a b : string) :
  all_chars p (a ++ b) = all_chars p a && all_chars p b.
Proof.
  induction a as [| c a IH]; simpl; [reflexivity |].
  rewrite IH, andb_assoc. reflexivity.
Qed.

Lemma uri_encode_char_safe (c : ascii) :
  all_chars uri_safe (uri_encode_char c) = true.
Proof.
  destruct c as [[] [] [] [] [] [] [] []]; vm_compute; reflexivity.
Qed.

Lemma encodeURIComponent_safe (s : string) :
  all_chars uri_safe (encodeURIComponent s) = true.
Proof.
  induction s as [| c s IH]; [reflexivity |].
  cbn [encodeURIComponent].
  rewrite all_chars_app, uri_encode_char_safe, IH. reflexivity.
Qed.

Lemma native_asset_privacyLink (n n' : Native) (a : Asset) :
  match native_privacyLink n with
  | Some s => all_chars uri_safe s = true
  | None => True
  end ->
  native_asset n a = Ok n' ->
  match native_privacyLink n' with
  | Some s => all_chars uri_safe s = true
  | None => True
  end.
Proof.
  intros Hn H. unfold native_asset in H.
  repeat match type of H with
         | (if ?b then _ else _) = _ => destruct b
         | bind (prop_of _ ?o) _ = _ =>
             destruct o; [cbn [prop_of bind] in H | discriminate H]
         end;
    injection H as <-; cbn [native_privacyLink]; try exact Hn.
  apply encodeURIComponent_safe.
Qed.

Lemma foldM_native_asset_privacyLink (assets : list Asset) (n n' : Native) :
  match native_privacyLink n with
  | Some s => all_chars uri_safe s = true
  | None => True
  end ->
  foldM native_asset assets n = Ok n' ->
  match native_privacyLink n' with
  | Some s => all_chars uri_safe s = true
  | None => True
  end.
Proof.
  revert n. induction assets as [| a assets IH]; intros n Hn H;
    cbn [foldM] in H.
  - injection H as <-. exact Hn.
  - destruct (native_asset n a) as [n1 |] eqn:E; [| discriminate H].
    cbn [bind] in H.
    exact (IH n1 (native_asset_privacyLink n n1 a Hn E) H).
Qed.

(** X15: the privacyLink of a native object createNativeAd returns is
    percent-encoded: it holds only letters, digits, the marks
    [- _ . ! ~ * ' ( )] and percent signs, whatever the privacy asset's
    value was. *)
Theorem createNativeAd_privacyLink_encoded (nativeAd : option NativeAd)
  (beaconUrl : option string) (n : Native) (s : string) :
  createNativeAd nativeAd beaconUrl = Ok n ->
  native_privacyLink n = Some s ->
  all_chars uri_safe s = true.
Proof.
  intros H Hs. unfold createNativeAd in H.
  destruct nativeAd as [na |];
    [| injection H as <-; discriminate Hs].
  destruct (na_assets na) as [assets |]; [| discriminate H].
  cbn [prop_of bind] in H.
  destruct (0 <? List.length assets)%nat;
    [| injection H as <-; discriminate Hs].
  destruct (foldM native_asset assets empty_native) as [n0 |] eqn:E;
    [| discriminate H].
  cbn [bind] in H. destruct (na_link na); [| discriminate H].
  cbn [prop_of bind] in H. injection H as <-. cbn [native_privacyLink] in Hs.
  pose proof (foldM_native_asset_privacyLink assets empty_native n0 I E) as P.
  rewrite Hs in P. exact P.
Qed.

Lemma createNativeAd_privacyLink_encoded_witness :
  exists n,
    createNativeAd (Some sample_native_ad) None = Ok n
    /\ native_privacyLink n = Some "https%3A%2F%2Foptout%3Fa%3D1%26b%3D2"
    /\ all_chars uri_safe "https%3A%2F%2Foptout%3Fa%3D1%26b%3D2" = true.
Proof.
  eexists. split; [vm_compute; reflexivity |]. split; [reflexivity |].
  eapply (createNativeAd_privacyLink_encoded (Some sample_native_ad) None);
    [vm_compute; reflexivity | reflexivity].
Defined.

Lemma native_asset_title_kept (n n' : Native) (a : Asset) :
  is_id a 1 = false -> native_asset n a = Ok n' ->
  native_title n' = native_title n.
Proof.
  intros H1 H. unfold native_asset in H. rewrite H1 in H.
  repeat match type of H with
         | (if ?b then _ else _) = _ => destruct b
         | bind (prop_of _ ?o) _ = _ =>
             destruct o; [cbn [prop_of bind] in H | discriminate H]
         end;
    injection H as <-; reflexivity.
Qed.

Lemma foldM_native_asset_title_kept (assets : list Asset) (n n' : Native) :
  forallb (fun x => negb (is_id x 1)) assets = true ->
  foldM native_asset assets n = Ok n' ->
  native_title n' = native_title n.
Proof.
  revert n. induction assets as [| a assets IH]; intros n F H;
    cbn [foldM forallb] in *.
  - injection H as <-. reflexivity.
  - apply andb_true_iff in F. destruct F as [Fa F].
    apply negb_true_iff in Fa.
    destruct (native_asset n a) as [n1 |] eqn:E; [| discriminate H].
    cbn [bind] in H. rewrite (IH n1 F H).
    exact (native_asset_title_kept n n1 a Fa E).
Qed.

(** X16: when several assets have the id 1, the title of the native
    object is the text of the last of them: an asset with another id
    leaves the title alone. *)
Theorem createNativeAd_last_title (na : NativeAd) (beaconUrl : option string)
  (l1 l2 : list Asset) (a : Asset) (x : Title) (n : Native) :
  na_assets na = Some (l1 ++ a :: l2)%list ->
  is_id a 1 = true ->
  asset_title a = Some x ->
  forallb (fun y => negb (is_id y 1)) l2 = true ->
  createNativeAd (Some na) beaconUrl = Ok n ->
  native_title n = title_text x.
Proof.
  intros Ha H1 Ht F H. unfold createNativeAd in H. rewrite Ha in H.
  cbn [prop_of bind] in H.
  destruct (0 <? List.length (l1 ++ a :: l2))%nat eqn:E0.
  - rewrite foldM_app in H.
    destruct (foldM native_asset l1 empty_native) as [n1 |];
      [| discriminate H].
    cbn [bind foldM] in H. unfold native_asset at 1 in H.
    rewrite H1, Ht in H. cbn [prop_of bind] in H.
    match type of H with
    | bind (foldM native_asset l2 ?m) _ = _ =>
        destruct (foldM native_asset l2 m) as [n2 |] eqn:E2;
          [| discriminate H];
        pose proof (foldM_native_asset_title_kept l2 m n2 F E2) as K
    end.
    cbn [bind] in H. destruct (na_link na); [| discriminate H].
    cbn [prop_of bind] in H. injection H as <-.
    cbn [native_title] in *. exact K.
  - apply Nat.ltb_ge in E0. rewrite length_app in E0. simpl in E0. lia.
Qed.

Lemma createNativeAd_last_title_witness :
  exists n,
    na_assets
      (with_assets sample_native_ad
         ([title_asset "first"]
          ++ title_asset "second" :: [sponsor_asset "Acme"]))
    = Some ([title_asset "first"]
            ++ title_asset "second" :: [sponsor_asset "Acme"])%list
    /\ is_id (title_asset "second") 1 = true
    /\ asset_title (title_asset "second")
       = Some {| title_text := Some "second" |}
    /\ forallb (fun y => negb (is_id y 1)) [sponsor_asset "Acme"] = true
    /\ createNativeAd
         (Some (with_assets sample_native_ad
                  ([title_asset "first"]
                   ++ title_asset "second" :: [sponsor_asset "Acme"])))
         None = Ok n
    /\ native_title n = title_text {| title_text := Some "second" |}.
Proof.
  eexists. split; [reflexivity |]. split; [reflexivity |].
  split; [reflexivity |]. split; [reflexivity |].
  split; [vm_compute; reflexivity |].
  apply (createNativeAd_last_title
           (with_assets sample_native_ad
              ([title_asset "first"]
               ++ title_asset "second" :: [sponsor_asset "Acme"]))
           None [title_asset "first"] [sponsor_asset "Acme"]
           (title_asset "second") {| title_text := Some "second" |});
    [reflexivity | reflexivity | reflexivity | reflexivity
    | vm_compute; reflexivity].
Defined.

(** ** A beacon with a replacement pattern *)

Lemma getSubstitution_app_plain (matched before after x r : string) :
  contains_char "$" x = false ->
  getSubstitution matched before after (x ++ r)
  = x ++ getSubstitution matched before after r.
Proof.
  induction x as [| c x IH]; intros H; [reflexivity |].
  cbn [contains_char] in H. apply orb_false_iff in H. destruct H as [Hc Hx].
  cbn [append getSubstitution]. rewrite Hc, (IH Hx). reflexivity.
Qed.

(** X17: the beacon is used as the replacement string of
    String.prototype.replace, so a [$&] in it does not reach the markup:
    the closing body tag that was matched is put in its place. *)
Theorem appendChildToBody_dollar_amp (before tag after x y : string) :
  no_match_before close_body_re (before ++ tag ++ after)
    (String.length before) = true ->
  close_body_re (tag ++ after) = Some (String.length tag) ->
  contains_char "$" x = false ->
  no_dollar_pattern y = true ->
  appendChildToBody (Some (before ++ tag ++ after)) (Some (x ++ "$&" ++ y))
  = Ok (before ++ x ++ tag ++ y ++ "</body>" ++ after).
Proof.
  intros Hn Hm Hx Hy. unfold appendChildToBody. cbn [prop_of bind to_string].
  rewrite (replace_first_at close_body_re before tag after _ Hn Hm).
  rewrite !append_assoc_r.
  rewrite (getSubstitution_app_plain tag before after x _ Hx).
  cbn [append getSubstitution Ascii.eqb Bool.eqb].
  rewrite (getSubstitution_no_pattern tag before after (y ++ "</body>")
             (no_dollar_pattern_close_tag y Hy)).
  rewrite !append_assoc_r. reflexivity.
Qed.

Lemma appendChildToBody_dollar_amp_witness :
  no_match_before close_body_re ("<body>X" ++ "</body>" ++ "")
    (String.length "<body>X") = true
  /\ close_body_re ("</body>" ++ "") = Some (String.length "</body>")
  /\ contains_char "$" "<img src=b?a=1" = false
  /\ no_dollar_pattern "b=2>" = true
  /\ appendChildToBody (Some ("<body>X" ++ "</body>" ++ ""))
       (Some ("<img src=b?a=1" ++ "$&" ++ "b=2>"))
     = Ok ("<body>X" ++ "<img src=b?a=1" ++ "</body>" ++ "b=2>" ++ "</body>"
           ++ "").
Proof.
  split; [reflexivity |]. split; [reflexivity |]. split; [reflexivity |].
  split; [reflexivity |].
  apply (appendChildToBody_dollar_amp "<body>X" "</body>" "" "<img src=b?a=1"
           "b=2>"); reflexivity.
Defined.

End AdgenerationCoverage.
